(** * The travel-assistant pipeline of [main.py]

    A shallow embedding of the three stage functions ([processing_node],
    [process_search], [format_output]), of the graph they are wired into
    and of the command-line loop [chatbot], followed by the properties the
    specification states about them.

    Conventions of the embedding:
    - a Python [str] is the list of its code points ([list N]);
    - a chat message is a record of its class ([HumanMessage], [AIMessage],
      [SystemMessage], ...), its text content and its optional id;
    - the state dictionary is a record with the two keys that the
      [State] TypedDict declares, so [state.get(key, default)] reads the field;
    - a Python exception is the [Raise] result of a computation;
    - the language model and the search tool are parameters: functions of
      their argument and of the state of the outside world;
    - of the graph library the embedding keeps what [main.py] uses: nodes
      run one after the other along the declared edges, each node's
      return value is written to the state, the [messages] key through
      the [add_messages] reducer named in [State], and [invoke] returns
      the final state. *)

From Stdlib Require Import NArith Ascii String.
From stdpp Require Import base numbers option list.

(** ** Python strings *)

Abbreviation pystr := (list N).

(** A string literal of the source, as code points. *)
Definition lit (s : string) : pystr := N_of_ascii <$> list_ascii_of_string s.

(** The characters [str.strip()] removes: CPython's whitespace table for
    code points below 128 and the Unicode white-space property above. *)
Definition isspace (c : N) : bool :=
  (((0x09 <=? c) && (c <=? 0x0D)) || ((0x1C <=? c) && (c <=? 0x20))
   || (c =? 0x85) || (c =? 0xA0) || (c =? 0x1680)
   || ((0x2000 <=? c) && (c <=? 0x200A))
   || (c =? 0x2028) || (c =? 0x2029) || (c =? 0x202F) || (c =? 0x205F)
   || (c =? 0x3000))%N.

Fixpoint lstrip (s : pystr) : pystr :=
  match s with
  | c :: s' => if isspace c then lstrip s' else s
  | [] => []
  end.

Definition rstrip (s : pystr) : pystr := reverse (lstrip (reverse s)).

(** [s.strip()] *)
Definition strip (s : pystr) : pystr := rstrip (lstrip s).

(** Truth value of a string: [not s] holds of the empty string only. *)
Definition is_empty (s : pystr) : bool :=
  match s with [] => true | _ => false end.

(** "Empty or whitespace-only": every character, if any, is white space. *)
Definition whitespace_only (s : pystr) : Prop :=
  Forall (fun c => isspace c = true) s.

(** ** Messages *)

(** The message classes [isinstance] tells apart. *)
Inductive msg_class := Human | AI | System | Other.

#[global] Instance msg_class_eq_dec : EqDecision msg_class.
Proof. solve_decision. Defined.

(** A message id is a string chosen by whoever built the message, or the
    [n]-th value that [uuid.uuid4()] produced in this process.  Draws of
    [uuid4] are taken to differ from each other and from chosen ids. *)
Inductive ident := Given (s : pystr) | Uuid4 (n : nat).

#[global] Instance ident_eq_dec : EqDecision ident.
Proof. solve_decision. Defined.

Record Message := mkMessage {
  role : msg_class;
  content : pystr;
  msg_id : option ident
}.

#[global] Instance Message_eq_dec : EqDecision Message.
Proof. solve_decision. Defined.

Definition HumanMessage (c : pystr) : Message := mkMessage Human c None.
Definition AIMessage (c : pystr) : Message := mkMessage AI c None.
Definition SystemMessage (c : pystr) : Message := mkMessage System c None.

(** [isinstance(m, cls)] *)
Definition isinstance (m : Message) (c : msg_class) : bool :=
  bool_decide (role m = c).

(** ** The shared state *)

Record State := mkState {
  messages : list Message;
  valid_input : bool
}.

(** ** Exceptions and effects *)

Inductive exn :=
| IndexError
| EOFError
| GraphRecursionError
| CollaboratorError (code : N).

Inductive result (A : Type) :=
| Ok (a : A)
| Raise (e : exn).
Arguments Ok {A} a.
Arguments Raise {A} e.

(** A computation over a state of type [S] that may raise. *)
Definition M (S A : Type) : Type := S -> result A * S.

Definition ret {S A} (a : A) : M S A := fun s => (Ok a, s).

Definition raise {S A} (e : exn) : M S A := fun s => (Raise e, s).

Definition bind {S A B} (c : M S A) (k : A -> M S B) : M S B :=
  fun s => match c s with
           | (Ok a, s') => k a s'
           | (Raise e, s') => (Raise e, s')
           end.

Notation "'let*' x := c 'in' k" := (bind c (fun x => k))
  (at level 10, x pattern, c at level 100, k at level 200).

(** [l[-1]] *)
Definition getitem_last {S A} (l : list A) : M S A :=
  match last l with
  | Some x => ret x
  | None => raise IndexError
  end.

(** ** The stages *)

Definition rewrite_instruction : string :=
  "You are a helpful assistant that is great at processing user queries and turning them into a singular search query."
  ++ "You will be given a user query and your job is the turn the users request into a new query that will be passed onto the next node."
  ++ "This new query will be used to search the internet for information relevant to the users original query."
  ++ "Do not bloat the query with unnecessary information, but ensure the context of the original query is preserved.".

Definition format_instruction : string :=
  "You are a helpful assistant that is great at formatting search results into a human readable format."
  ++ "You should receive the results of a search query that was processed in the previous few nodes."
  ++ "The results should contain contents reguarding travel information, such as destinations, cities, countries, etc."
  ++ "Your job is to format the results into the following format:"
  ++ "Topic Sentence (Can be something similar like 'Here are some interesting facts about x' or whatever you feel best fits as an intro sentence.)"
  ++ "3-5 bullet points describing the travel location as a whole"
  ++ "3-5 bullet points naming destinations the user should visit in the travel location"
  ++ "3-5 bullet points naming top things the user should do in the travel location"
  ++ "1-3 bullet points naming any other interesting facts about the travel location the user should know (can put N/A if not applicable)"
  ++ "A List of sources that were used"
  ++ "Stick to this format, and do not bloat the output with unnecessary information."
  ++ "Do not explicitly type metadata such as 'title' or 'source' in the output, just list the contents of the metadata.".

(** The message list handed to the model by the rewriter. *)
Definition rewrite_prompt (user_text : pystr) : list Message :=
  [SystemMessage (lit rewrite_instruction); HumanMessage user_text].

(** The message list handed to the model by the formatter. *)
Definition format_prompt (results_text : pystr) : list Message :=
  [SystemMessage (lit format_instruction); HumanMessage results_text].

Definition no_user_input : Message := AIMessage (lit "No user input received.").
Definition no_search_query : Message := AIMessage (lit "No search query received.").
Definition no_search_results : Message := AIMessage (lit "No search results received.").

Section Stages.

(** The state of the outside world: the model service and the search
    provider.  A call may change it and may raise. *)
Variable W : Type.
Variable llm_invoke : list Message -> M W Message.
Variable tool_search_run : pystr -> M W pystr.

(** Node - validate and process the user's input. *)
Definition processing_node (state : State) : M W State :=
  let messages := messages state in
  match last messages with
  | None =>
      (* not messages *)
      ret (mkState (messages ++ [no_user_input]) false)
  | Some last_message =>
      if negb (isinstance last_message Human) then
        ret (mkState (messages ++ [no_user_input]) false)
      else if is_empty (strip (content last_message)) then
        ret (mkState (messages ++ [no_user_input]) false)
      else
        let* response := llm_invoke (rewrite_prompt (content last_message)) in
        ret (mkState (messages ++ [response]) true)
  end.

(** Node - perform the internet search. *)
Definition process_search (state : State) : M W State :=
  let messages := messages state in
  let* search_query := getitem_last messages in
  if negb (isinstance search_query AI) then
    ret (mkState (messages ++ [no_search_query]) false)
  else
    let* results := tool_search_run (content search_query) in
    ret (mkState (messages ++ [AIMessage (lit "Search results: " ++ results)]) true).

(** Node - format the search results. *)
Definition format_output (state : State) : M W State :=
  let messages := messages state in
  let* search_results := getitem_last messages in
  if negb (isinstance search_results AI) then
    ret (mkState (messages ++ [no_search_results]) false)
  else
    let* formatted_results := llm_invoke (format_prompt (content search_results)) in
    ret (mkState (messages ++ [formatted_results]) true).

End Stages.

(** ** The [add_messages] reducer of the [messages] key

    The reducer gives every message that has no id a fresh one, then
    merges the right list into the left one by id: a message whose id is
    already present replaces the message at that position, any other
    message is appended.  The state of these computations is the number
    of ids drawn so far. *)

Definition assign_id (m : Message) : M nat Message :=
  fun k => match msg_id m with
           | Some _ => (Ok m, k)
           | None => (Ok (mkMessage (role m) (content m) (Some (Uuid4 k))), S k)
           end.

Fixpoint assign_ids (ms : list Message) : M nat (list Message) :=
  match ms with
  | [] => ret []
  | m :: ms' =>
      let* m' := assign_id m in
      let* ms'' := assign_ids ms' in
      ret (m' :: ms'')
  end.

(** [merged_by_id.get(i)]: the position of [merged] that holds id [i],
    the last one when several do. *)
Fixpoint index_of (i : option ident) (merged : list Message) : option nat :=
  match merged with
  | [] => None
  | m :: rest =>
      match index_of i rest with
      | Some j => Some (S j)
      | None => if decide (msg_id m = i) then Some 0%nat else None
      end
  end.

Definition merge_message (merged : list Message) (m : Message) : list Message :=
  match index_of (msg_id m) merged with
  | Some existing_idx => <[existing_idx := m]> merged
  | None => merged ++ [m]
  end.

Definition add_messages (left right : list Message) : M nat (list Message) :=
  let* left := assign_ids left in
  let* right := assign_ids right in
  ret (foldl merge_message left right).

(** ** The graph and the command-line loop *)

Module Node.
Inductive t := START | process_input | process_search | format_output | END.
End Node.

#[global] Instance node_eq_dec : EqDecision Node.t.
Proof. solve_decision. Defined.

(** What the process writes to the terminal: the prompt of [input] and
    the lines of [print]. *)
Inductive out := Prompt (s : pystr) | Printed (s : pystr).

Definition prompt_text : pystr := lit "Enter your search query ('q' to quit): ".

Section Graph.

Variable W : Type.
Variable llm_invoke : list Message -> M W Message.
Variable tool_search_run : pystr -> M W pystr.

(** The state of the running process: the outside world, the number of
    ids drawn and what was written to the terminal. *)
Record Proc := mkProc {
  world : W;
  uuid_count : nat;
  stdout : list out
}.

Definition in_world {A} (c : M W A) : M Proc A :=
  fun p => let (r, w) := c (world p) in (r, mkProc w (uuid_count p) (stdout p)).

Definition with_uuid {A} (c : M nat A) : M Proc A :=
  fun p => let (r, k) := c (uuid_count p) in (r, mkProc (world p) k (stdout p)).

(** The process after it wrote [o] to the terminal. *)
Definition after_write (o : out) (p : Proc) : Proc :=
  mkProc (world p) (uuid_count p) (stdout p ++ [o]).

Definition write_stdout (o : out) : M Proc unit :=
  fun p => (Ok tt, after_write o p).

(** [graph_builder.add_node] *)
Definition node_function (n : Node.t) : option (State -> M W State) :=
  match n with
  | Node.process_input => Some (processing_node W llm_invoke)
  | Node.process_search => Some (process_search W tool_search_run)
  | Node.format_output => Some (format_output W llm_invoke)
  | Node.START | Node.END => None
  end.

(** [lambda state: state.get("valid_input", False)] *)
Definition route (state : State) : bool := valid_input state.

(** [graph_builder.add_edge] and [graph_builder.add_conditional_edges] *)
Definition next_node (n : Node.t) (state : State) : Node.t :=
  match n with
  | Node.START => Node.process_input
  | Node.process_input =>
      if route state then Node.process_search else Node.END
  | Node.process_search =>
      if route state then Node.format_output else Node.END
  | Node.format_output => Node.END
  | Node.END => Node.END
  end.

(** Writing a dictionary to the state: [messages] goes through its
    reducer, [valid_input] is overwritten. *)
Definition update_channels (channels update : State) : M Proc State :=
  let* merged := with_uuid (add_messages (messages channels) (messages update)) in
  ret (mkState merged (valid_input update)).

(** One node of the graph: call it on the state, write what it returns. *)
Definition superstep (f : State -> M W State) (channels : State) : M Proc State :=
  let* update := in_world (f channels) in
  update_channels channels update.

Definition recursion_limit : nat := 25.

(** The compiled graph from node [n] on: run the node on the state,
    write what it returns, follow the edge.  The log records the nodes
    that ran, each with the state after its write. *)
Fixpoint run (fuel : nat) (n : Node.t) (channels : State)
    (log : list (Node.t * State)) : M Proc (State * list (Node.t * State)) :=
  match node_function n with
  | None => ret (channels, log)
  | Some f =>
      match fuel with
      | O => raise GraphRecursionError
      | S fuel' =>
          let* channels' := superstep f channels in
          run fuel' (next_node n channels') channels' (log ++ [(n, channels')])
      end
  end.

(** [graph.invoke(state)], with the log of the run. *)
Definition invoke_log (input : State) : M Proc (State * list (Node.t * State)) :=
  let* channels := update_channels (mkState [] false) input in
  run recursion_limit (next_node Node.START channels) channels [].

(** [graph.invoke(state)] *)
Definition invoke (input : State) : M Proc State :=
  let* r := invoke_log input in
  ret (fst r).

(** [state["messages"] += [HumanMessage(user_input)]] *)
Definition add_user_input (user_input : pystr) (state : State) : State :=
  mkState (messages state ++ [HumanMessage user_input]) (valid_input state).

(** The body of the loop of [chatbot]. *)
Definition turn (user_input : pystr) (state : State) : M Proc State :=
  let state := add_user_input user_input state in
  let* state := invoke state in
  let* response := getitem_last (messages state) in
  let* _ := (if isinstance response AI
             then write_stdout (Printed (content response))
             else write_stdout (Printed (lit "Invalid response received."))) in
  ret state.

(** The loop of [chatbot] over the lines that [input] will read; the
    result is the value of the local variable [state] when the loop
    ends. *)
Fixpoint chatbot_loop (stdin : list pystr) (state : State) : M Proc State :=
  match stdin with
  | [] =>
      let* _ := write_stdout (Prompt prompt_text) in
      raise EOFError
  | user_input :: rest =>
      let* _ := write_stdout (Prompt prompt_text) in
      if bool_decide (user_input = lit "q") then ret state
      else
        let* state := turn user_input state in
        chatbot_loop rest state
  end.

Definition chatbot (stdin : list pystr) : M Proc State :=
  chatbot_loop stdin (mkState [] false).

End Graph.

Arguments mkProc {W} world uuid_count stdout.
Arguments world {W} p.
Arguments uuid_count {W} p.
Arguments stdout {W} p.
Arguments in_world {W A} c p.
Arguments with_uuid {W A} c p.
Arguments after_write {W} o p.
Arguments write_stdout {W} o p.
Arguments update_channels {W} channels update p.
Arguments superstep {W} f channels p.

(** ** Notions used by the properties *)

(** The model keeps its side of the interface: what it returns is an
    assistant message. *)
Definition assistant_replies {W} (llm_invoke : list Message -> M W Message) : Prop :=
  forall prompt w r w', llm_invoke prompt w = (Ok r, w') -> role r = AI.

(** The id of a reply, if it has one, was chosen by the model: it is not
    one that [uuid4] produces in this process. *)
Definition foreign_reply_ids {W} (llm_invoke : list Message -> M W Message) : Prop :=
  forall prompt w r w' n, llm_invoke prompt w = (Ok r, w') -> msg_id r <> Some (Uuid4 n).

Definition ids (ms : list Message) : list (option ident) := msg_id <$> ms.

Definition has_id (m : Message) : Prop := msg_id m <> None.

(** The id of [m] is not one that [uuid4] has yet to produce, [k] ids
    having been drawn. *)
Definition drawn_before (k : nat) (m : Message) : Prop :=
  forall n, msg_id m = Some (Uuid4 n) -> (n < k)%nat.

(** The message list of a state that went through the reducer: every
    message has an id, no id occurs twice, and the ids drawn by [uuid4]
    are among the first [k]. *)
Record channel_ok (k : nat) (ms : list Message) : Prop := mk_channel_ok {
  ok_assigned : Forall has_id ms;
  ok_nodup : NoDup (ids ms);
  ok_drawn : Forall (drawn_before k) ms
}.

(** ** Test doubles

    Collaborators for the worked examples.  The outside world is the
    number of calls made so far. *)
Module Stub.

Definition llm_invoke (prompt : list Message) : M nat Message :=
  fun calls => (Ok (AIMessage (lit "Portugal beaches")), S calls).

Definition tool_search_run (query : pystr) : M nat pystr :=
  fun calls => (Ok (lit "stub results"), S calls).

(** A model that labels every reply with the same id. *)
Definition llm_same_id (prompt : list Message) : M nat Message :=
  fun calls => (Ok (mkMessage AI (lit "Portugal beaches") (Some (Given (lit "reply")))),
                S calls).

Definition start : Proc nat := mkProc 0 0 [].

Definition beaches : pystr := lit "best beaches in Portugal".

Definition blank : pystr := lit "   ".

Definition with_id (m : Message) (n : nat) : Message :=
  mkMessage (role m) (content m) (Some (Uuid4 n)).

(** The state after a turn on the blank line. *)
Definition after_blank : State :=
  mkState [with_id (HumanMessage blank) 0; with_id no_user_input 1] false.

(** The four messages of a turn that went through the three stages,
    [k] ids having been drawn before it. *)
Definition turn_messages (user_input : pystr) (k : nat) : list Message :=
  [with_id (HumanMessage user_input) k;
   with_id (AIMessage (lit "Portugal beaches")) (k + 1);
   with_id (AIMessage (lit "Search results: " ++ lit "stub results")) (k + 2);
   with_id (AIMessage (lit "Portugal beaches")) (k + 3)].

Definition after_one_turn : State := mkState (turn_messages beaches 0) true.

Definition after_two_turns : State :=
  mkState (turn_messages beaches 0 ++ turn_messages beaches 4) true.

End Stub.

(** ** Further notions *)

(** The message [m] with the [k]-th id of [uuid4]: what the reducer
    makes of a message that came without id. *)
Definition stamped (m : Message) (k : nat) : Message :=
  mkMessage (role m) (content m) (Some (Uuid4 k)).

(** A computation of the process that writes nothing to the terminal,
    whether it returns or raises. *)
Definition quiet {W A} (c : M (Proc W) A) : Prop :=
  forall p, stdout (snd (c p)) = stdout p.

(** The model never gives out an id twice.  [used w i] says that the
    id [i] was given out before the outside world reached [w]: the id of
    a reply, if it has one, is none that [uuid4] produces in this
    process, was not used before the call and is used after it; and no
    call of a collaborator makes a used id unused. *)
Record new_reply_ids {W} (llm_invoke : list Message -> M W Message)
    (tool_search_run : pystr -> M W pystr) (used : W -> ident -> Prop) : Prop :=
  mk_new_reply_ids {
  reply_id_new :
    forall prompt w r w' i,
      llm_invoke prompt w = (Ok r, w') -> msg_id r = Some i ->
      (forall n, i <> Uuid4 n) /\ ~ used w i /\ used w' i;
  used_after_llm :
    forall prompt w res w' i,
      llm_invoke prompt w = (res, w') -> used w i -> used w' i;
  used_after_search :
    forall query w res w' i,
      tool_search_run query w = (res, w') -> used w i -> used w' i
}.

(** Every id of the history came from [uuid4] or was given out by the
    model before the outside world reached [w]. *)
Definition ids_given_out {W} (used : W -> ident -> Prop) (w : W)
    (ms : list Message) : Prop :=
  Forall (fun m => forall i, msg_id m = Some i -> (exists n, i = Uuid4 n) \/ used w i) ms.

(** The claim of the specification about two successful turns, for the
    collaborators [llm_invoke] and [tool_search_run]. *)
Definition eight_after_two_turns {W} (llm_invoke : list Message -> M W Message)
    (tool_search_run : pystr -> M W pystr) : Prop :=
  forall (u1 u2 : pystr) (s1 s2 : State) (p p1 p2 : Proc W),
    u1 <> lit "q" -> u2 <> lit "q" ->
    turn W llm_invoke tool_search_run u1 (mkState [] false)
         (after_write (Prompt prompt_text) p) = (Ok s1, p1) ->
    valid_input s1 = true ->
    turn W llm_invoke tool_search_run u2 s1
         (after_write (Prompt prompt_text) p1) = (Ok s2, p2) ->
    valid_input s2 = true ->
    length (messages s2) = 8%nat.

(** Collaborators that are out of service. *)
Module Outage.

Definition llm_invoke (prompt : list Message) : M nat Message :=
  fun calls => (Raise (CollaboratorError 503), S calls).

Definition tool_search_run (query : pystr) : M nat pystr :=
  fun calls => (Raise (CollaboratorError 429), S calls).

End Outage.

(** A model that labels each reply with the number of the call: no id
    is given out twice. *)
Module Client.

Definition reply (n : nat) : Message :=
  mkMessage AI (lit "Portugal beaches") (Some (Given [N.of_nat n])).

Definition llm_invoke (prompt : list Message) : M nat Message :=
  fun calls => (Ok (reply calls), S calls).

Definition used (calls : nat) (i : ident) : Prop :=
  exists n, (n < calls)%nat /\ i = Given [N.of_nat n].

Definition wrapped : Message :=
  AIMessage (lit "Search results: " ++ lit "stub results").

(** The messages of a turn through the three stages that began after
    [k] draws of [uuid4] and [c] calls of the collaborators. *)
Definition turn_messages (user_input : pystr) (k c : nat) : list Message :=
  [Stub.with_id (HumanMessage user_input) k; reply c;
   Stub.with_id wrapped (k + 1); reply (c + 2)].

Definition after_one_turn : State := mkState (turn_messages Stub.beaches 0 0) true.

Definition process_one : Proc nat := mkProc 3 2 [Printed (lit "Portugal beaches")].

Definition after_two_turns : State :=
  mkState (turn_messages Stub.beaches 0 0 ++ turn_messages Stub.beaches 2 3) true.

(** The log of the run of the first turn. *)
Definition run_log : list (Node.t * State) :=
  [(Node.process_input, mkState (take 2 (turn_messages Stub.beaches 0 0)) true);
   (Node.process_search, mkState (take 3 (turn_messages Stub.beaches 0 0)) true);
   (Node.format_output, after_one_turn)].

(** A session of two turns: a query, then a blank line. *)
Definition lines : list pystr := [Stub.beaches; Stub.blank].

Definition history : State :=
  mkState (turn_messages Stub.beaches 0 0
           ++ [Stub.with_id (HumanMessage Stub.blank) 2;
               Stub.with_id no_user_input 3])
          false.

Definition process : Proc nat :=
  mkProc 3 4 [Prompt prompt_text; Printed (lit "Portugal beaches");
              Prompt prompt_text; Printed (lit "No user input received.");
              Prompt prompt_text].

End Client.

(** A model that gives the report of a turn the id of the query of that
    turn. *)
Module Reuse.

Definition reply (n : nat) : Message :=
  mkMessage AI (lit "Portugal beaches") (Some (Given [N.of_nat n])).

Definition llm_invoke (prompt : list Message) : M nat Message :=
  fun calls => (Ok (reply (calls / 3)), S calls).

Definition turn_messages (k c : nat) : list Message :=
  [Stub.with_id (HumanMessage Stub.beaches) k; reply c;
   Stub.with_id Client.wrapped (k + 1)].

Definition after_one_turn : State := mkState (turn_messages 0 0) true.

Definition after_two_turns : State :=
  mkState (turn_messages 0 0 ++ turn_messages 2 1) true.

Definition process_one : Proc nat :=
  mkProc 3 2 [Prompt prompt_text; Printed (content Client.wrapped)].

Definition process_two : Proc nat :=
  mkProc 6 4 [Prompt prompt_text; Printed (content Client.wrapped);
              Prompt prompt_text; Printed (content Client.wrapped)].

End Reuse.


(** * Properties *)

(** ** Trimming *)

Lemma lstrip_nil (s : pystr) : lstrip s = [] <-> whitespace_only s.
Proof.
  unfold whitespace_only.
  induction s as [|c s IH]; simpl.
  - split; [constructor | reflexivity].
  - destruct (isspace c) eqn:Hc.
    + rewrite IH. split.
      * intros H. by constructor.
      * intros H. by inversion H.
    + split; [discriminate |].
      intros H. inversion H; congruence.
Qed.

Lemma lstrip_head (s t : pystr) (c : N) : lstrip s = c :: t -> isspace c = false.
Proof.
  induction s as [|d s IH]; simpl; [discriminate |].
  destruct (isspace d) eqn:Hd; [exact IH |].
  intros [= -> _]. exact Hd.
Qed.

(** The stripped string is empty exactly when the string holds nothing
    but white space. *)
Lemma strip_nil (s : pystr) : strip s = [] <-> whitespace_only s.
Proof.
  unfold strip, rstrip.
  rewrite <- (lstrip_nil s).
  split.
  - intros H.
    apply (f_equal reverse) in H. rewrite reverse_involutive in H.
    change (reverse []) with (@nil N) in H.
    apply lstrip_nil in H. unfold whitespace_only in H.
    rewrite Forall_reverse in H.
    destruct (lstrip s) as [|c t] eqn:Hs; [reflexivity |].
    apply lstrip_head in Hs. inversion H; congruence.
  - intros ->. reflexivity.
Qed.

Lemma is_empty_strip (s : pystr) : is_empty (strip s) = true <-> whitespace_only s.
Proof.
  rewrite <- strip_nil. destruct (strip s); simpl; split; congruence.
Qed.

Lemma is_empty_strip_false (s : pystr) :
  is_empty (strip s) = false <-> ~ whitespace_only s.
Proof.
  rewrite <- is_empty_strip. destruct (is_empty (strip s)); split; congruence.
Qed.

(** ** The stages, one at a time *)

Section StageProperties.

Variable W : Type.
Variable llm_invoke : list Message -> M W Message.
Variable tool_search_run : pystr -> M W pystr.

Lemma isinstance_true (m : Message) (c : msg_class) :
  isinstance m c = true <-> role m = c.
Proof. unfold isinstance. by rewrite bool_decide_eq_true. Qed.

Lemma isinstance_false (m : Message) (c : msg_class) :
  isinstance m c = false <-> role m <> c.
Proof. unfold isinstance. by rewrite bool_decide_eq_false. Qed.

(** The success branch of the rewriter, as an equation. *)
Lemma processing_node_success (st : State) (m : Message) (w : W) :
  last (messages st) = Some m -> role m = Human ->
  ~ whitespace_only (content m) ->
  processing_node W llm_invoke st w
  = match llm_invoke (rewrite_prompt (content m)) w with
    | (Ok r, w') => (Ok (mkState (messages st ++ [r]) true), w')
    | (Raise e, w') => (Raise e, w')
    end.
Proof.
  intros Hlast Hh Hc. unfold processing_node. rewrite Hlast.
  apply isinstance_true in Hh. rewrite Hh. simpl.
  apply is_empty_strip_false in Hc. rewrite Hc.
  unfold bind, ret. reflexivity.
Qed.

(** The search stage on a non-empty message list. *)
Lemma process_search_nonempty (st : State) (q : Message) (w : W) :
  last (messages st) = Some q ->
  process_search W tool_search_run st w
  = if isinstance q AI
    then match tool_search_run (content q) w with
         | (Ok results, w') =>
             (Ok (mkState (messages st
                           ++ [AIMessage (lit "Search results: " ++ results)]) true), w')
         | (Raise e, w') => (Raise e, w')
         end
    else (Ok (mkState (messages st ++ [no_search_query]) false), w).
Proof.
  intros Hlast. unfold process_search, getitem_last, bind. rewrite Hlast.
  unfold ret at 1. destruct (isinstance q AI); reflexivity.
Qed.

(** The formatter on a non-empty message list. *)
Lemma format_output_nonempty (st : State) (q : Message) (w : W) :
  last (messages st) = Some q ->
  format_output W llm_invoke st w
  = if isinstance q AI
    then match llm_invoke (format_prompt (content q)) w with
         | (Ok r, w') => (Ok (mkState (messages st ++ [r]) true), w')
         | (Raise e, w') => (Raise e, w')
         end
    else (Ok (mkState (messages st ++ [no_search_results]) false), w).
Proof.
  intros Hlast. unfold format_output, getitem_last, bind. rewrite Hlast.
  unfold ret at 1. destruct (isinstance q AI); reflexivity.
Qed.

(** Both later stages index the empty list. *)
Lemma process_search_empty (st : State) (w : W) :
  messages st = [] ->
  process_search W tool_search_run st w = (Raise IndexError, w).
Proof. intros H. unfold process_search. rewrite H. reflexivity. Qed.

Lemma format_output_empty (st : State) (w : W) :
  messages st = [] ->
  format_output W llm_invoke st w = (Raise IndexError, w).
Proof. intros H. unfold format_output. rewrite H. reflexivity. Qed.

(** *** What the specification says of single stages *)

(** C1.  On a state whose message list is empty, whose last message is
    not a user message, or whose last message holds nothing but white
    space, the rewriter returns the input messages followed by the
    assistant message "No user input received.", with [valid_input]
    false.  It raises nothing and calls no collaborator. *)
Theorem processing_node_rejects_missing_input (st : State) (w : W) :
  messages st = []
  \/ (exists m, last (messages st) = Some m
                /\ (role m <> Human \/ whitespace_only (content m))) ->
  processing_node W llm_invoke st w
  = (Ok (mkState (messages st ++ [AIMessage (lit "No user input received.")])
                 false),
     w).
Proof.
  unfold processing_node.
  intros [Hnil | (m & Hlast & Hm)].
  - rewrite Hnil. reflexivity.
  - rewrite Hlast.
    destruct (isinstance m Human) eqn:Hh; simpl; [| reflexivity].
    destruct Hm as [Hm | Hm].
    + apply isinstance_true in Hh. contradiction.
    + apply is_empty_strip in Hm. rewrite Hm. reflexivity.
Qed.

(** C2, as the code behaves on the empty message list: both later
    stages raise [IndexError] where the specification has them append their
    diagnostic. *)
Theorem later_stages_raise_on_empty_list (flag : bool) (w : W) :
  process_search W tool_search_run (mkState [] flag) w = (Raise IndexError, w)
  /\ format_output W llm_invoke (mkState [] flag) w = (Raise IndexError, w).
Proof.
  split; [by apply process_search_empty | by apply format_output_empty].
Qed.

(** The part of C2 the code keeps: on a message list that ends in a
    message that is not an assistant message, the later stages append
    their diagnostic and clear the flag. *)
Lemma later_stages_reject_other_messages (st : State) (q : Message) (w : W) :
  last (messages st) = Some q -> role q <> AI ->
  process_search W tool_search_run st w
  = (Ok (mkState (messages st ++ [AIMessage (lit "No search query received.")])
                 false), w)
  /\ format_output W llm_invoke st w
     = (Ok (mkState (messages st ++ [AIMessage (lit "No search results received.")])
                    false), w).
Proof.
  intros Hlast Hq. apply isinstance_false in Hq.
  rewrite (process_search_nonempty st q w Hlast),
          (format_output_nonempty st q w Hlast), Hq.
  done.
Qed.

(** C4.  On a state whose last message is a user message with visible
    text, the rewriter returns the input messages followed by the reply
    of the model, an assistant message, with [valid_input] true. *)
Theorem processing_node_accepts_user_text
    (st : State) (m r : Message) (w w' : W) :
  assistant_replies llm_invoke ->
  last (messages st) = Some m -> role m = Human ->
  ~ whitespace_only (content m) ->
  llm_invoke (rewrite_prompt (content m)) w = (Ok r, w') ->
  processing_node W llm_invoke st w
  = (Ok (mkState (messages st ++ [r]) true), w')
  /\ role r = AI.
Proof.
  intros Hai Hlast Hh Hc Hr. split; [| by eapply Hai].
  by rewrite (processing_node_success st m w Hlast Hh Hc), Hr.
Qed.

(** C5.  On a state whose message list ends in an assistant message,
    the search stage returns the input messages followed by one
    assistant message, "Search results: " and then what the search
    tool returned for the text of that last message, with
    [valid_input] true. *)
Theorem process_search_wraps_results
    (st : State) (q : Message) (results : pystr) (w w' : W) :
  last (messages st) = Some q -> role q = AI ->
  tool_search_run (content q) w = (Ok results, w') ->
  process_search W tool_search_run st w
  = (Ok (mkState (messages st
                  ++ [AIMessage (lit "Search results: " ++ results)]) true),
     w')
  /\ role (AIMessage (lit "Search results: " ++ results)) = AI.
Proof.
  intros Hlast Hq Hr. split; [| reflexivity].
  apply isinstance_true in Hq.
  by rewrite (process_search_nonempty st q w Hlast), Hq, Hr.
Qed.

End StageProperties.
(** ** The reducer *)


Lemma index_of_Some (i : option ident) (ms : list Message) (j : nat) :
  index_of i ms = Some j -> exists m, ms !! j = Some m /\ msg_id m = i.
Proof.
  revert j. induction ms as [|m ms IH]; intros j; simpl; [discriminate |].
  destruct (index_of i ms) as [j'|].
  - intros [= <-]. apply (IH j'). reflexivity.
  - destruct (decide (msg_id m = i)) as [Hm|]; [| discriminate].
    intros [= <-]. exists m. done.
Qed.

Lemma index_of_None (i : option ident) (ms : list Message) :
  index_of i ms = None <-> i ∉ ids ms.
Proof.
  unfold ids. induction ms as [|m ms IH]; simpl.
  - split; [intros _; apply not_elem_of_nil | reflexivity].
  - rewrite not_elem_of_cons, <- IH.
    destruct (index_of i ms).
    + split; [discriminate | intros [_ ?]; discriminate].
    + destruct (decide (msg_id m = i)) as [Hm|Hm].
      * split; [discriminate | intros [Hne _]; by destruct Hne].
      * split; [intros _; split; [congruence | done] | done].
Qed.

Lemma index_of_lookup (ms : list Message) (j : nat) (m : Message) :
  NoDup (ids ms) -> ms !! j = Some m -> index_of (msg_id m) ms = Some j.
Proof.
  intros Hnd Hj.
  destruct (index_of (msg_id m) ms) as [j'|] eqn:Hi.
  - apply index_of_Some in Hi as (m' & Hj' & Hid).
    f_equal. apply (NoDup_lookup (ids ms) j' j (msg_id m)); [done | |].
    + unfold ids. rewrite list_lookup_fmap, Hj'. simpl. by f_equal.
    + unfold ids. by rewrite list_lookup_fmap, Hj.
  - apply index_of_None in Hi. exfalso. apply Hi.
    unfold ids. apply list_elem_of_fmap_2. by eapply list_elem_of_lookup_2.
Qed.

Lemma merge_message_fresh (ms : list Message) (m : Message) :
  msg_id m ∉ ids ms -> merge_message ms m = ms ++ [m].
Proof.
  intros H. apply index_of_None in H. unfold merge_message. by rewrite H.
Qed.

Lemma merge_message_same (ms : list Message) (m : Message) :
  NoDup (ids ms) -> m ∈ ms -> merge_message ms m = ms.
Proof.
  intros Hnd Hin. apply list_elem_of_lookup_1 in Hin as [j Hj].
  unfold merge_message. rewrite (index_of_lookup ms j m Hnd Hj).
  by apply list_insert_id.
Qed.

Lemma merge_message_ids (ms : list Message) (m : Message) :
  ids (merge_message ms m) = ids ms
  \/ ((msg_id m ∉ ids ms) /\ merge_message ms m = ms ++ [m]).
Proof.
  unfold merge_message.
  destruct (index_of (msg_id m) ms) as [j|] eqn:Hi.
  - left. apply index_of_Some in Hi as (m' & Hj & Hid).
    unfold ids. rewrite list_fmap_insert. apply list_insert_id.
    rewrite list_lookup_fmap, Hj. simpl. by f_equal.
  - right. by apply index_of_None in Hi.
Qed.

Lemma merge_message_NoDup (ms : list Message) (m : Message) :
  NoDup (ids ms) -> NoDup (ids (merge_message ms m)).
Proof.
  intros Hnd. destruct (merge_message_ids ms m) as [-> | [Hnew ->]]; [done |].
  unfold ids in *. rewrite fmap_app. apply NoDup_app. split_and!; [done | |].
  - intros i Hi. simpl. rewrite list_elem_of_singleton. by intros ->.
  - apply NoDup_singleton.
Qed.

Lemma merge_message_Forall (P : Message -> Prop) (ms : list Message) (m : Message) :
  Forall P ms -> P m -> Forall P (merge_message ms m).
Proof.
  intros Hms Hm. unfold merge_message.
  destruct (index_of (msg_id m) ms).
  - by apply Forall_insert.
  - apply Forall_app. split; [done | by constructor].
Qed.

(** After a merge the list ends in the merged message or as it did. *)
Lemma merge_message_last (ms : list Message) (m : Message) :
  last (merge_message ms m) = Some m
  \/ (last (merge_message ms m) = last ms /\ ms <> []).
Proof.
  unfold merge_message.
  destruct (index_of (msg_id m) ms) as [j|] eqn:Hi.
  - apply index_of_Some in Hi as (m' & Hj & _).
    assert (Hlt : (j < length ms)%nat) by (by eapply lookup_lt_Some).
    assert (Hne : ms <> []) by (intros ->; simpl in Hlt; lia).
    rewrite !last_lookup, length_insert.
    destruct (decide (j = pred (length ms))) as [->|Hneq].
    + left. by apply list_lookup_insert_eq.
    + right. split; [| done]. by apply list_lookup_insert_ne.
  - left. apply last_snoc.
Qed.

Lemma foldl_merge_same (acc ms : list Message) :
  NoDup (ids acc) -> ms ⊆ acc -> foldl merge_message acc ms = acc.
Proof.
  intros Hnd. induction ms as [|m ms IH]; intros Hsub; simpl; [done |].
  rewrite merge_message_same; [| done | apply Hsub; left].
  apply IH. intros x Hx. apply Hsub. by right.
Qed.

Lemma foldl_merge_fresh (acc ms : list Message) :
  NoDup (ids (acc ++ ms)) -> foldl merge_message acc ms = acc ++ ms.
Proof.
  revert acc. induction ms as [|m ms IH]; intros acc Hnd; simpl.
  - by rewrite app_nil_r.
  - rewrite merge_message_fresh.
    + rewrite (IH (acc ++ [m])); rewrite <- app_assoc; done.
    + unfold ids in *. rewrite fmap_app in Hnd. apply NoDup_app in Hnd as (_ & Hd & _).
      intros Hin. apply (Hd _ Hin). simpl. left.
Qed.

Lemma foldl_merge_NoDup (acc ms : list Message) :
  NoDup (ids acc) -> NoDup (ids (foldl merge_message acc ms)).
Proof.
  revert acc. induction ms as [|m ms IH]; intros acc Hnd; simpl; [done |].
  apply IH. by apply merge_message_NoDup.
Qed.

Lemma foldl_merge_Forall (P : Message -> Prop) (acc ms : list Message) :
  Forall P acc -> Forall P ms -> Forall P (foldl merge_message acc ms).
Proof.
  revert acc. induction ms as [|m ms IH]; intros acc Hacc Hms; simpl; [done |].
  inversion Hms; subst. apply IH; [| done]. by apply merge_message_Forall.
Qed.

Lemma foldl_merge_nonempty (acc ms : list Message) :
  acc <> [] \/ ms <> [] -> foldl merge_message acc ms <> [].
Proof.
  revert acc. induction ms as [|m ms IH]; intros acc H; simpl.
  - by destruct H.
  - apply IH. left.
    destruct (merge_message_last acc m) as [Hl | [Hl Hne]].
    + intros E. by rewrite E in Hl.
    + intros E. rewrite E in Hl. simpl in Hl. symmetry in Hl.
      by apply last_None in Hl.
Qed.

Lemma drawn_before_mono (k k' : nat) (m : Message) :
  (k <= k')%nat -> drawn_before k m -> drawn_before k' m.
Proof. intros Hle H n Hn. specialize (H n Hn). lia. Qed.

Lemma assign_id_has_id (m : Message) (k : nat) :
  has_id m -> assign_id m k = (Ok m, k).
Proof.
  unfold has_id, assign_id. destruct (msg_id m); [reflexivity | congruence].
Qed.

Lemma assign_id_None (m : Message) (k : nat) :
  msg_id m = None ->
  assign_id m k = (Ok (mkMessage (role m) (content m) (Some (Uuid4 k))), S k).
Proof. unfold assign_id. by intros ->. Qed.

(** Whatever the message, it leaves [assign_id] with an id, its class and
    its text. *)
Lemma assign_id_spec (m : Message) (k : nat) :
  exists m' k', assign_id m k = (Ok m', k')
    /\ role m' = role m /\ content m' = content m /\ has_id m'
    /\ (k <= k')%nat
    /\ (drawn_before k m -> drawn_before k' m')
    /\ (msg_id m = None -> msg_id m' = Some (Uuid4 k))
    /\ (has_id m -> m' = m).
Proof.
  destruct (msg_id m) as [i|] eqn:Hi.
  - exists m, k. rewrite assign_id_has_id by (unfold has_id; congruence).
    split_and!; try done; unfold has_id; congruence.
  - eexists _, _. rewrite (assign_id_None m k Hi).
    split_and!; simpl; try done; try lia.
    intros _ n [= <-]. lia.
Qed.

Lemma assign_ids_has_id (ms : list Message) (k : nat) :
  Forall has_id ms -> assign_ids ms k = (Ok ms, k).
Proof.
  induction 1 as [|m ms Hm _ IH]; simpl; [reflexivity |].
  unfold bind. by rewrite (assign_id_has_id m k Hm), IH.
Qed.

Lemma assign_ids_app (l1 l2 a b : list Message) (k k1 k2 : nat) :
  assign_ids l1 k = (Ok a, k1) -> assign_ids l2 k1 = (Ok b, k2) ->
  assign_ids (l1 ++ l2) k = (Ok (a ++ b), k2).
Proof.
  revert a k. induction l1 as [|m l1 IH]; intros a k; simpl.
  - unfold ret. intros [= <- <-]. done.
  - unfold bind. destruct (assign_id m k) as [[m'|e] k'] eqn:Hm; [| discriminate].
    destruct (assign_ids l1 k') as [[a'|e] k''] eqn:Ha; [| discriminate].
    unfold ret. intros [= <- <-] Hb.
    by rewrite (IH a' k' Ha Hb).
Qed.

Lemma assign_ids_spec (ms : list Message) (k : nat) :
  exists ms' k', assign_ids ms k = (Ok ms', k')
    /\ Forall has_id ms' /\ (k <= k')%nat
    /\ (Forall (drawn_before k) ms -> Forall (drawn_before k') ms')
    /\ (ms <> [] -> ms' <> []).
Proof.
  revert k. induction ms as [|m ms IH]; intros k; simpl.
  - exists [], k. by split_and!.
  - destruct (assign_id_spec m k) as (m' & k1 & Hm & _ & _ & Hid & Hle & Hdr & _).
    destruct (IH k1) as (ms' & k2 & Hms & Hids & Hle' & Hdr' & _).
    exists (m' :: ms'), k2. unfold bind. rewrite Hm, Hms.
    split_and!; [done | by constructor | lia | | done].
    intros H. inversion H; subst. constructor.
    + eapply drawn_before_mono; [exact Hle' | by apply Hdr].
    + apply Hdr'. eapply Forall_impl; [eassumption |].
      intros x. by apply drawn_before_mono.
Qed.

(** A node returned the messages it was given and one more: the reducer
    merges that one message. *)
Lemma add_messages_extend (ms : list Message) (x x' : Message) (k k' : nat) :
  channel_ok k ms -> assign_id x k = (Ok x', k') ->
  add_messages ms (ms ++ [x]) k = (Ok (merge_message ms x'), k').
Proof.
  intros [Hid Hnd _] Hx. unfold add_messages, bind.
  rewrite (assign_ids_has_id ms k Hid).
  rewrite (assign_ids_app ms [x] ms [x'] k k k').
  - unfold ret. rewrite foldl_app. simpl. by rewrite foldl_merge_same.
  - by apply assign_ids_has_id.
  - simpl. unfold bind. by rewrite Hx.
Qed.

(** The first write of a run, on any input. *)
Lemma add_messages_init (input : list Message) (k : nat) :
  Forall (drawn_before k) input ->
  exists ms k', add_messages [] input k = (Ok ms, k')
    /\ channel_ok k' ms /\ (k <= k')%nat /\ (input <> [] -> ms <> []).
Proof.
  intros Hdr.
  destruct (assign_ids_spec input k) as (r & k' & Hr & Hid & Hle & Hdr' & Hne).
  exists (foldl merge_message [] r), k'.
  unfold add_messages, bind. simpl. unfold ret at 1. rewrite Hr.
  split_and!; [done | | done |].
  - split.
    + by apply foldl_merge_Forall.
    + apply foldl_merge_NoDup. constructor.
    + apply foldl_merge_Forall; [done | by apply Hdr'].
  - intros H. apply foldl_merge_nonempty. right. by apply Hne.
Qed.

(** The first write of a turn of the loop: the state of the turn before
    and the new user message. *)
Lemma channel_ok_snoc (ms : list Message) (x : Message) (k : nat) :
  channel_ok k ms -> msg_id x = Some (Uuid4 k) -> channel_ok (S k) (ms ++ [x]).
Proof.
  intros [Hid Hnd Hdr] Hx. split.
  - apply Forall_app. split; [done |]. constructor; [| done].
    unfold has_id. congruence.
  - unfold ids in *. rewrite fmap_app. apply NoDup_app.
    split_and!; [done | | apply NoDup_singleton].
    intros i Hi. simpl. rewrite list_elem_of_singleton, Hx. intros ->.
    apply list_elem_of_fmap in Hi as (m & Hm & Hin).
    rewrite Forall_forall in Hdr. specialize (Hdr m Hin k (eq_sym Hm)). lia.
  - apply Forall_app. split.
    + eapply Forall_impl; [eassumption |]. intros m. apply drawn_before_mono. lia.
    + constructor; [| done]. intros n. rewrite Hx. intros [= <-]. lia.
Qed.

Lemma add_messages_init_user (ms : list Message) (u : pystr) (k : nat) :
  channel_ok k ms ->
  add_messages [] (ms ++ [HumanMessage u]) k
  = (Ok (ms ++ [mkMessage Human u (Some (Uuid4 k))]), S k).
Proof.
  intros Hok. unfold add_messages, bind. simpl. unfold ret at 1.
  rewrite (assign_ids_app ms [HumanMessage u] ms
             [mkMessage Human u (Some (Uuid4 k))] k k (S k)).
  - unfold ret. rewrite foldl_merge_fresh; [done |].
    simpl. by apply (channel_ok_snoc ms _ k).
  - apply assign_ids_has_id. by destruct Hok.
  - reflexivity.
Qed.

Lemma channel_ok_nil (k : nat) : channel_ok k [].
Proof. split; constructor. Qed.

Lemma channel_ok_merge (ms : list Message) (x : Message) (k k' : nat) :
  channel_ok k ms -> has_id x -> drawn_before k' x -> (k <= k')%nat ->
  channel_ok k' (merge_message ms x).
Proof.
  intros [Hid Hnd Hdr] Hx Hx' Hle. split.
  - by apply merge_message_Forall.
  - by apply merge_message_NoDup.
  - apply merge_message_Forall; [| done].
    eapply Forall_impl; [eassumption |]. intros m. by apply drawn_before_mono.
Qed.

Lemma channel_ok_snoc_fresh (ms : list Message) (x : Message) (k : nat) :
  channel_ok k ms -> msg_id x = Some (Uuid4 k) ->
  merge_message ms x = ms ++ [x].
Proof.
  intros [_ _ Hdr] Hx. apply merge_message_fresh. rewrite Hx.
  unfold ids. intros Hin. apply list_elem_of_fmap in Hin as (m & Hm & Hin).
  rewrite Forall_forall in Hdr. specialize (Hdr m Hin k (eq_sym Hm)). lia.
Qed.

(** ** Computations *)

Lemma bind_Ok {S A B} (c : M S A) (k : A -> M S B) (s s2 : S) (b : B) :
  bind c k s = (Ok b, s2) ->
  exists a s1, c s = (Ok a, s1) /\ k a s1 = (Ok b, s2).
Proof.
  unfold bind. destruct (c s) as [[a|e] s1]; [| discriminate].
  intros H. by exists a, s1.
Qed.

Lemma bind_step {S A B} (c : M S A) (k : A -> M S B) (s s1 : S) (a : A) :
  c s = (Ok a, s1) -> bind c k s = k a s1.
Proof. intros H. unfold bind. by rewrite H. Qed.

Lemma bind_raise {S A B} (c : M S A) (k : A -> M S B) (s s1 : S) (e : exn) :
  c s = (Raise e, s1) -> bind c k s = (Raise e, s1).
Proof. intros H. unfold bind. by rewrite H. Qed.

Section GraphProperties.

Variable W : Type.
Variable llm_invoke : list Message -> M W Message.
Variable tool_search_run : pystr -> M W pystr.

Local Abbreviation node_fn := (node_function W llm_invoke tool_search_run).
Local Abbreviation run_from := (run W llm_invoke tool_search_run).
Local Abbreviation graph_invoke_log := (invoke_log W llm_invoke tool_search_run).
Local Abbreviation graph_invoke := (invoke W llm_invoke tool_search_run).

(** What a stage returns is its input list and one message, which the
    stage built itself (an assistant message without id) or received
    from the model. *)
Lemma stage_new_message (n : Node.t) (f : State -> M W State)
    (st st' : State) (w w' : W) :
  node_fn n = Some f -> f st w = (Ok st', w') ->
  exists x, st' = mkState (messages st ++ [x]) (valid_input st')
    /\ ((role x = AI /\ msg_id x = None)
        \/ ((exists prompt, llm_invoke prompt w = (Ok x, w'))
            /\ n <> Node.process_search /\ valid_input st' = true)).
Proof.
  intros Hn Hf. destruct n; simpl in Hn; inversion Hn; subst f; clear Hn.
  - (* process_input *)
    unfold processing_node in Hf.
    destruct (last (messages st)) as [m|].
    + destruct (negb (isinstance m Human)); [| destruct (is_empty (strip (content m)))].
      * inversion Hf; subst. eexists. split; [reflexivity |]. by left.
      * inversion Hf; subst. eexists. split; [reflexivity |]. by left.
      * apply bind_Ok in Hf as (r & w1 & Hr & Hf). inversion Hf; subst.
        exists r. split; [reflexivity |]. right. split_and!; [by eexists | done | done].
    + inversion Hf; subst. eexists. split; [reflexivity |]. by left.
  - (* process_search *)
    unfold process_search in Hf.
    apply bind_Ok in Hf as (q & w1 & Hq & Hf).
    unfold getitem_last in Hq. destruct (last (messages st)); inversion Hq; subst.
    destruct (negb (isinstance q AI)).
    + inversion Hf; subst. eexists. split; [reflexivity |]. by left.
    + apply bind_Ok in Hf as (r & w2 & Hr & Hf). inversion Hf; subst.
      eexists. split; [reflexivity |]. by left.
  - (* format_output *)
    unfold format_output in Hf.
    apply bind_Ok in Hf as (q & w1 & Hq & Hf).
    unfold getitem_last in Hq. destruct (last (messages st)); inversion Hq; subst.
    destruct (negb (isinstance q AI)).
    + inversion Hf; subst. eexists. split; [reflexivity |]. by left.
    + apply bind_Ok in Hf as (r & w2 & Hr & Hf). inversion Hf; subst.
      exists r. split; [reflexivity |]. right. split_and!; [by eexists | done | done].
Qed.

(** The reducer never raises and never returns the empty list for a
    non-empty update. *)
Lemma add_messages_total (l r : list Message) (k : nat) :
  exists ms k', add_messages l r k = (Ok ms, k') /\ (r <> [] -> ms <> []).
Proof.
  destruct (assign_ids_spec l k) as (l' & k1 & Hl & _).
  destruct (assign_ids_spec r k1) as (r' & k2 & Hr & _ & _ & _ & Hne).
  exists (foldl merge_message l' r'), k2.
  unfold add_messages. rewrite (bind_step _ _ _ _ _ Hl), (bind_step _ _ _ _ _ Hr).
  split; [reflexivity |]. intros H. apply foldl_merge_nonempty. right. by apply Hne.
Qed.

Lemma update_channels_total (ch upd : State) (p : Proc W) :
  exists ms k', update_channels ch upd p
    = (Ok (mkState ms (valid_input upd)), mkProc (world p) k' (stdout p))
    /\ add_messages (messages ch) (messages upd) (uuid_count p) = (Ok ms, k').
Proof.
  destruct (add_messages_total (messages ch) (messages upd) (uuid_count p))
    as (ms & k' & Hadd & _).
  exists ms, k'. split; [| done].
  unfold update_channels, bind, with_uuid. by rewrite Hadd.
Qed.

(** A node that returns makes a superstep that returns. *)
Lemma superstep_inv (f : State -> M W State) (ch ch' : State) (p p' : Proc W) :
  superstep f ch p = (Ok ch', p') ->
  exists upd ms,
    f ch (world p) = (Ok upd, world p')
    /\ add_messages (messages ch) (messages upd) (uuid_count p) = (Ok ms, uuid_count p')
    /\ ch' = mkState ms (valid_input upd)
    /\ stdout p' = stdout p.
Proof.
  unfold superstep. intros H.
  apply bind_Ok in H as (upd & p1 & Hupd & H).
  unfold in_world in Hupd.
  destruct (f ch (world p)) as [[u|e] w1] eqn:Hf; inversion Hupd; subst; clear Hupd.
  destruct (update_channels_total ch upd
              (mkProc w1 (uuid_count p) (stdout p))) as (ms & k' & Hu & Hadd).
  rewrite Hu in H. inversion H; subst; clear H. simpl in *.
  by exists upd, ms.
Qed.

Lemma superstep_nonempty (n : Node.t) (f : State -> M W State)
    (ch ch' : State) (p p' : Proc W) :
  node_fn n = Some f -> superstep f ch p = (Ok ch', p') -> messages ch' <> [].
Proof.
  intros Hn H. apply superstep_inv in H as (upd & ms & Hf & Hadd & -> & _).
  destruct (stage_new_message n f ch upd _ _ Hn Hf) as (x & Hupd & _).
  destruct (add_messages_total (messages ch) (messages upd) (uuid_count p))
    as (ms' & k' & Hadd' & Hne).
  rewrite Hadd in Hadd'. inversion Hadd'; subst. simpl.
  apply Hne. rewrite Hupd. simpl. by destruct (messages ch).
Qed.

(** On a channel whose ids are in order, a superstep merges the one
    message the node added, and keeps the ids in order. *)
Lemma superstep_merge (n : Node.t) (f : State -> M W State)
    (ch ch' : State) (p p' : Proc W) :
  foreign_reply_ids llm_invoke ->
  node_fn n = Some f ->
  channel_ok (uuid_count p) (messages ch) ->
  superstep f ch p = (Ok ch', p') ->
  exists x x',
    f ch (world p) = (Ok (mkState (messages ch ++ [x]) (valid_input ch')), world p')
    /\ assign_id x (uuid_count p) = (Ok x', uuid_count p')
    /\ messages ch' = merge_message (messages ch) x'
    /\ channel_ok (uuid_count p') (messages ch')
    /\ stdout p' = stdout p.
Proof.
  intros Hforeign Hn Hok H.
  apply superstep_inv in H as (upd & ms & Hf & Hadd & -> & Hout).
  destruct (stage_new_message n f ch upd _ _ Hn Hf) as (x & Hupd & Hx).
  destruct (assign_id_spec x (uuid_count p))
    as (x' & k' & Hx' & _ & _ & Hid & Hle & Hdr & _).
  rewrite Hupd in Hadd. simpl in Hadd.
  rewrite (add_messages_extend _ x x' _ k' Hok Hx') in Hadd.
  inversion Hadd; subst ms. simpl.
  exists x, x'. split_and!; try done.
  - by rewrite <- Hupd.
  - congruence.
  - replace (uuid_count p') with k' by congruence.
    apply (channel_ok_merge _ _ (uuid_count p)); try done.
    apply Hdr. destruct Hx as [[_ Hnone] | [[prompt Hr] _]].
    + intros i Hi. congruence.
    + intros i Hi. exfalso. by eapply Hforeign.
Qed.

(** *** The run of the graph *)

Lemma run_stage (fuel : nat) (n : Node.t) (f : State -> M W State)
    (ch : State) (log : list (Node.t * State)) :
  node_fn n = Some f ->
  run_from (S fuel) n ch log
  = (let* ch' := superstep f ch in
     run_from fuel (next_node n ch') ch' (log ++ [(n, ch')])).
Proof. intros H. simpl. by rewrite H. Qed.

Lemma run_END (fuel : nat) (ch : State) (log : list (Node.t * State)) (p : Proc W) :
  run_from fuel Node.END ch log p = (Ok (ch, log), p).
Proof. by destruct fuel. Qed.

(** The three ways a run of the graph can complete. *)
Lemma run_shape (ch0 st : State) (log : list (Node.t * State)) (p p' : Proc W) :
  run_from recursion_limit Node.process_input ch0 [] p = (Ok (st, log), p') ->
  exists s1 p1,
    superstep (processing_node W llm_invoke) ch0 p = (Ok s1, p1)
    /\ ((valid_input s1 = false
         /\ log = [(Node.process_input, s1)] /\ st = s1 /\ p' = p1)
        \/ (valid_input s1 = true
            /\ exists s2 p2,
                superstep (process_search W tool_search_run) s1 p1 = (Ok s2, p2)
                /\ ((valid_input s2 = false
                     /\ log = [(Node.process_input, s1); (Node.process_search, s2)]
                     /\ st = s2 /\ p' = p2)
                    \/ (valid_input s2 = true
                        /\ exists s3,
                            superstep (format_output W llm_invoke) s2 p2 = (Ok s3, p')
                            /\ log = [(Node.process_input, s1);
                                      (Node.process_search, s2);
                                      (Node.format_output, s3)]
                            /\ st = s3)))).
Proof.
  unfold recursion_limit. rewrite (run_stage _ Node.process_input _ _ _ eq_refl).
  intros H. apply bind_Ok in H as (s1 & p1 & H1 & H).
  exists s1, p1. split; [done |].
  unfold next_node, route in H. destruct (valid_input s1) eqn:Hv1.
  - right. split; [done |].
    rewrite (run_stage _ Node.process_search _ _ _ eq_refl) in H.
    apply bind_Ok in H as (s2 & p2 & H2 & H).
    exists s2, p2. split; [done |].
    unfold next_node, route in H. destruct (valid_input s2) eqn:Hv2.
    + right. split; [done |].
      rewrite (run_stage _ Node.format_output _ _ _ eq_refl) in H.
      apply bind_Ok in H as (s3 & p3 & H3 & H).
      unfold next_node in H. rewrite run_END in H. inversion H; subst.
      by exists st.
    + left. rewrite run_END in H. by inversion H; subst.
  - left. rewrite run_END in H. by inversion H; subst.
Qed.

Lemma invoke_log_inv (input st : State) (log : list (Node.t * State)) (p p' : Proc W) :
  graph_invoke_log input p = (Ok (st, log), p') ->
  exists ms k,
    add_messages [] (messages input) (uuid_count p) = (Ok ms, k)
    /\ run_from recursion_limit Node.process_input
         (mkState ms (valid_input input)) [] (mkProc (world p) k (stdout p))
       = (Ok (st, log), p').
Proof.
  unfold invoke_log. intros H. apply bind_Ok in H as (ch0 & p0 & H0 & H).
  destruct (update_channels_total (mkState [] false) input p) as (ms & k & Hu & Hadd).
  rewrite Hu in H0. inversion H0; subst. by exists ms, k.
Qed.

Lemma invoke_inv (input st : State) (p p' : Proc W) :
  graph_invoke input p = (Ok st, p') ->
  exists log, graph_invoke_log input p = (Ok (st, log), p').
Proof.
  unfold invoke. intros H. apply bind_Ok in H as ([st0 log] & p0 & H0 & H).
  inversion H; subst. by exists log.
Qed.

(** A run ends after a stage that cleared the flag. *)
Lemma run_exit_after_rewriter (ch0 s1 : State) (p p1 : Proc W) :
  superstep (processing_node W llm_invoke) ch0 p = (Ok s1, p1) ->
  valid_input s1 = false ->
  run_from recursion_limit Node.process_input ch0 [] p
  = (Ok (s1, [(Node.process_input, s1)]), p1).
Proof.
  intros H1 Hv. unfold recursion_limit.
  rewrite (run_stage _ Node.process_input _ _ _ eq_refl), (bind_step _ _ _ _ _ H1).
  unfold next_node, route. rewrite Hv. apply run_END.
Qed.

Lemma run_exit_after_search (ch0 s1 s2 : State) (p p1 p2 : Proc W) :
  superstep (processing_node W llm_invoke) ch0 p = (Ok s1, p1) ->
  valid_input s1 = true ->
  superstep (process_search W tool_search_run) s1 p1 = (Ok s2, p2) ->
  valid_input s2 = false ->
  run_from recursion_limit Node.process_input ch0 [] p
  = (Ok (s2, [(Node.process_input, s1); (Node.process_search, s2)]), p2).
Proof.
  intros H1 Hv1 H2 Hv2. unfold recursion_limit.
  rewrite (run_stage _ Node.process_input _ _ _ eq_refl), (bind_step _ _ _ _ _ H1).
  unfold next_node at 1, route. rewrite Hv1.
  rewrite (run_stage _ Node.process_search _ _ _ eq_refl), (bind_step _ _ _ _ _ H2).
  unfold next_node, route. rewrite Hv2. apply run_END.
Qed.

Lemma invoke_nonempty (input st : State) (p p' : Proc W) :
  graph_invoke input p = (Ok st, p') -> messages st <> [].
Proof.
  intros H. apply invoke_inv in H as (log & H).
  apply invoke_log_inv in H as (ms & k & _ & H).
  apply run_shape in H as (s1 & p1 & H1 & [(_ & _ & -> & _) | (_ & s2 & p2 & H2 & H)]).
  - by apply (superstep_nonempty Node.process_input _ _ _ _ _ eq_refl H1).
  - destruct H as [(_ & _ & -> & _) | (_ & s3 & H3 & _ & ->)].
    + by apply (superstep_nonempty Node.process_search _ _ _ _ _ eq_refl H2).
    + by apply (superstep_nonempty Node.format_output _ _ _ _ _ eq_refl H3).
Qed.

(** After a superstep the list ends in an assistant message, unless a
    reply of the model took the place of an older message. *)
Lemma superstep_last (n : Node.t) (f : State -> M W State)
    (ch ch' : State) (p p' : Proc W) :
  assistant_replies llm_invoke -> foreign_reply_ids llm_invoke ->
  node_fn n = Some f ->
  channel_ok (uuid_count p) (messages ch) ->
  superstep f ch p = (Ok ch', p') ->
  channel_ok (uuid_count p') (messages ch')
  /\ stdout p' = stdout p
  /\ exists y, last (messages ch') = Some y
       /\ (role y = AI
           \/ (last (messages ch) = Some y
               /\ n <> Node.process_search /\ valid_input ch' = true)).
Proof.
  intros Hai Hforeign Hn Hok H.
  destruct (superstep_merge n f ch ch' p p' Hforeign Hn Hok H)
    as (x & x' & Hf & Hx' & Hms & Hok' & Hout).
  split; [done |]. split; [done |].
  destruct (stage_new_message n f ch _ _ _ Hn Hf) as (x0 & Hupd & Hx).
  inversion Hupd as [Hx0]. apply app_inj_tail in Hx0 as [_ <-]. clear Hupd.
  destruct (assign_id_spec x (uuid_count p))
    as (x1 & k1 & Hx1 & Hrole & _ & _ & _ & _ & Hnone & _).
  rewrite Hx' in Hx1. inversion Hx1; subst x1 k1. clear Hx1.
  rewrite Hms.
  destruct Hx as [[Hr Hid] | [[prompt Hreply] [Hn' Hv]]].
  - exists x'. rewrite (channel_ok_snoc_fresh _ _ _ Hok (Hnone Hid)), last_snoc.
    split; [done |]. left. congruence.
  - assert (Hr : role x' = AI) by (rewrite Hrole; by eapply Hai).
    destruct (merge_message_last (messages ch) x') as [Hl | [Hl Hne]].
    + exists x'. split; [done | by left].
    + rewrite Hl. destruct (last (messages ch)) as [y|] eqn:Hy.
      * exists y. split; [done |]. right. done.
      * by apply last_None in Hy.
Qed.

(** *** Completed runs *)

Lemma invoke_last (input st : State) (p p' : Proc W) :
  assistant_replies llm_invoke -> foreign_reply_ids llm_invoke ->
  Forall (drawn_before (uuid_count p)) (messages input) ->
  graph_invoke input p = (Ok st, p') ->
  channel_ok (uuid_count p') (messages st)
  /\ stdout p' = stdout p
  /\ exists r, last (messages st) = Some r /\ role r = AI.
Proof.
  intros Hai Hforeign Hdr H.
  apply invoke_inv in H as (log & H).
  apply invoke_log_inv in H as (ms & k & Hadd & H).
  destruct (add_messages_init _ _ Hdr) as (ms' & k' & Hadd' & Hok & _).
  rewrite Hadd in Hadd'. inversion Hadd'; subst ms' k'. clear Hadd'.
  apply run_shape in H as (s1 & p1 & H1 & H).
  apply (superstep_last Node.process_input) in H1
    as (Hok1 & Hout1 & y1 & Hy1 & Hr1); try done.
  simpl in Hout1.
  destruct H as [(Hv1 & _ & -> & ->) | (_ & s2 & p2 & H2 & H)].
  { split; [done |]. split; [done |]. exists y1. split; [done |].
    destruct Hr1 as [? | (_ & _ & Hv)]; [done | congruence]. }
  apply (superstep_last Node.process_search) in H2
    as (Hok2 & Hout2 & y2 & Hy2 & Hr2); try done.
  assert (Hai2 : role y2 = AI) by (destruct Hr2 as [? | (_ & ? & _)]; done).
  destruct H as [(_ & _ & -> & ->) | (_ & s3 & H3 & _ & ->)].
  { split; [done |]. split; [congruence |]. by exists y2. }
  apply (superstep_last Node.format_output) in H3
    as (Hok3 & Hout3 & y3 & Hy3 & Hr3); try done.
  split; [done |]. split; [congruence |]. exists y3. split; [done |].
  destruct Hr3 as [? | (Hy & _)]; [done | congruence].
Qed.

(** *** The loop *)

Lemma turn_step (user_input : pystr) (state state' : State) (p p1 : Proc W) :
  graph_invoke (add_user_input user_input state) p = (Ok state', p1) ->
  exists response,
    last (messages state') = Some response
    /\ turn W llm_invoke tool_search_run user_input state p
       = (Ok state',
          after_write (Printed (if isinstance response AI
                              then content response
                              else lit "Invalid response received.")) p1).
Proof.
  intros H. pose proof (invoke_nonempty _ _ _ _ H) as Hne.
  destruct (last (messages state')) as [response|] eqn:Hlast;
    [| by apply last_None in Hlast].
  exists response. split; [done |].
  unfold turn. rewrite (bind_step _ _ _ _ _ H).
  unfold getitem_last. rewrite Hlast. unfold bind, ret, write_stdout.
  by destruct (isinstance response AI).
Qed.

Lemma turn_inv (user_input : pystr) (state state' : State) (p p' : Proc W) :
  turn W llm_invoke tool_search_run user_input state p = (Ok state', p') ->
  exists p1 response,
    graph_invoke (add_user_input user_input state) p = (Ok state', p1)
    /\ last (messages state') = Some response
    /\ p' = after_write (Printed (if isinstance response AI
                                then content response
                                else lit "Invalid response received.")) p1.
Proof.
  intros H. pose proof H as H'. unfold turn in H'.
  apply bind_Ok in H' as (st1 & p1 & Hinv & _).
  destruct (turn_step _ _ _ _ _ Hinv) as (response & Hlast & Hturn).
  rewrite Hturn in H. inversion H; subst. by exists p1, response.
Qed.

Lemma chatbot_loop_quit (rest : list pystr) (state : State) (p : Proc W) :
  chatbot_loop W llm_invoke tool_search_run (lit "q" :: rest) state p
  = (Ok state, after_write (Prompt prompt_text) p).
Proof. reflexivity. Qed.

Lemma chatbot_loop_turn (user_input : pystr) (rest : list pystr)
    (state : State) (p : Proc W) :
  user_input <> lit "q" ->
  chatbot_loop W llm_invoke tool_search_run (user_input :: rest) state p
  = (let* state' := turn W llm_invoke tool_search_run user_input state in
     chatbot_loop W llm_invoke tool_search_run rest state')
      (after_write (Prompt prompt_text) p).
Proof.
  intros Hq. simpl. unfold bind at 1, write_stdout.
  by rewrite (bool_decide_eq_false_2 _ Hq).
Qed.

(** Each stage is a function of the last message of its input. *)
Lemma stage_factors (n : Node.t) (f : State -> M W State) :
  node_fn n = Some f ->
  exists g : option Message -> M W (Message * bool),
    forall st w,
      f st w = match g (last (messages st)) w with
               | (Ok (x, b), w') => (Ok (mkState (messages st ++ [x]) b), w')
               | (Raise e, w') => (Raise e, w')
               end.
Proof.
  intros Hn. destruct n; simpl in Hn; inversion Hn; subst f; clear Hn.
  - exists (fun o =>
              match o with
              | None => ret (no_user_input, false)
              | Some m =>
                  if negb (isinstance m Human) then ret (no_user_input, false)
                  else if is_empty (strip (content m))
                       then ret (no_user_input, false)
                       else let* response := llm_invoke (rewrite_prompt (content m)) in
                            ret (response, true)
              end).
    intros st w. unfold processing_node.
    destruct (last (messages st)) as [m|]; [| reflexivity].
    destruct (negb (isinstance m Human)); [reflexivity |].
    destruct (is_empty (strip (content m))); [reflexivity |].
    unfold bind, ret.
    by destruct (llm_invoke (rewrite_prompt (content m)) w) as [[r|e] w'].
  - exists (fun o =>
              match o with
              | None => raise IndexError
              | Some q =>
                  if negb (isinstance q AI) then ret (no_search_query, false)
                  else let* results := tool_search_run (content q) in
                       ret (AIMessage (lit "Search results: " ++ results), true)
              end).
    intros st w. unfold process_search, getitem_last.
    destruct (last (messages st)) as [q|]; [| reflexivity].
    cbv beta iota delta [bind ret].
    destruct (negb (isinstance q AI)); [reflexivity |].
    by destruct (tool_search_run (content q) w) as [[r|e] w'].
  - exists (fun o =>
              match o with
              | None => raise IndexError
              | Some q =>
                  if negb (isinstance q AI) then ret (no_search_results, false)
                  else let* r := llm_invoke (format_prompt (content q)) in
                       ret (r, true)
              end).
    intros st w. unfold format_output, getitem_last.
    destruct (last (messages st)) as [q|]; [| reflexivity].
    cbv beta iota delta [bind ret].
    destruct (negb (isinstance q AI)); [reflexivity |].
    by destruct (llm_invoke (format_prompt (content q)) w) as [[r|e] w'].
Qed.

(** *** What the specification says of the stages together *)

(** C6.  Whenever a stage returns, the message list it returns is the
    message list it was given, unchanged, followed by one new
    message. *)
Theorem stage_appends_one_message (n : Node.t) (f : State -> M W State)
    (st st' : State) (w w' : W) :
  node_fn n = Some f -> f st w = (Ok st', w') ->
  exists x, messages st' = messages st ++ [x].
Proof.
  intros Hn Hf.
  destruct (stage_new_message n f st st' w w' Hn Hf) as (x & -> & _).
  by exists x.
Qed.

(** C9.  Run from the same outside world on two states whose message
    lists end in the same message, a stage appends the same message,
    sets the same flag and leaves the world the same, or raises the
    same exception. *)
Theorem stage_reads_last_message_only (n : Node.t) (f : State -> M W State)
    (st1 st2 : State) (m : Message) (w : W) :
  node_fn n = Some f ->
  last (messages st1) = Some m -> last (messages st2) = Some m ->
  match f st1 w, f st2 w with
  | (Ok r1, w1), (Ok r2, w2) =>
      exists x, messages r1 = messages st1 ++ [x]
                /\ messages r2 = messages st2 ++ [x]
                /\ valid_input r1 = valid_input r2 /\ w1 = w2
  | (Raise e1, w1), (Raise e2, w2) => e1 = e2 /\ w1 = w2
  | _, _ => False
  end.
Proof.
  intros Hn H1 H2. destruct (stage_factors n f Hn) as (g & Hg).
  rewrite (Hg st1 w), (Hg st2 w), H1, H2.
  destruct (g (Some m) w) as [[[x b]|e] w']; [| done].
  by exists x.
Qed.

(** C3.  The edges out of the rewriter and out of the search stage lead
    to the end when [valid_input] is false.  So a run in which the
    rewriter leaves [valid_input] false ends there: its result is the
    state the rewriter left, and the search stage is not called; and a
    run in which the search stage leaves [valid_input] false ends
    there, and the formatter is not called.  In the log of a completed
    run, accordingly, no search stage follows a rewriter that cleared
    the flag and no formatter follows a search stage that did. *)
Theorem router_exits_early :
  (forall s, valid_input s = false ->
             next_node Node.process_input s = Node.END
             /\ next_node Node.process_search s = Node.END)
  /\ (forall ch0 s1 p p1,
        superstep (processing_node W llm_invoke) ch0 p = (Ok s1, p1) ->
        valid_input s1 = false ->
        run_from recursion_limit Node.process_input ch0 [] p
        = (Ok (s1, [(Node.process_input, s1)]), p1))
  /\ (forall ch0 s1 s2 p p1 p2,
        superstep (processing_node W llm_invoke) ch0 p = (Ok s1, p1) ->
        valid_input s1 = true ->
        superstep (process_search W tool_search_run) s1 p1 = (Ok s2, p2) ->
        valid_input s2 = false ->
        run_from recursion_limit Node.process_input ch0 [] p
        = (Ok (s2, [(Node.process_input, s1); (Node.process_search, s2)]), p2))
  /\ (forall input p st log p',
        graph_invoke_log input p = (Ok (st, log), p') ->
        (forall s, (Node.process_input, s) ∈ log -> valid_input s = false ->
                   st = s /\ forall s', (Node.process_search, s') ∉ log)
        /\ (forall s, (Node.process_search, s) ∈ log -> valid_input s = false ->
                      st = s /\ forall s', (Node.format_output, s') ∉ log)).
Proof.
  split_and!.
  { intros s Hs. unfold next_node, route. by rewrite Hs. }
  { apply run_exit_after_rewriter. }
  { apply run_exit_after_search. }
  intros input p st log p' H.
  apply invoke_log_inv in H as (ms & k & _ & H).
  apply run_shape in H as (s1 & p1 & _ & H).
  destruct H as [(Hv1 & -> & -> & _) | (Hv1 & s2 & p2 & _ & H)].
  { split; intros s Hs Hv.
    - apply list_elem_of_singleton in Hs. inversion Hs; subst.
      split; [done |]. intros s' Hs'.
      apply list_elem_of_singleton in Hs'. discriminate.
    - apply list_elem_of_singleton in Hs. discriminate. }
  destruct H as [(Hv2 & -> & -> & _) | (Hv2 & s3 & _ & -> & ->)].
  - split; intros s Hs Hv.
    + apply elem_of_cons in Hs as [Hs | Hs]; [inversion Hs; congruence |].
      apply list_elem_of_singleton in Hs. discriminate.
    + apply elem_of_cons in Hs as [Hs | Hs]; [discriminate |].
      apply list_elem_of_singleton in Hs. inversion Hs; subst.
      split; [done |]. intros s' Hs'.
      apply elem_of_cons in Hs' as [Hs' | Hs']; [discriminate |].
      apply list_elem_of_singleton in Hs'. discriminate.
  - split; intros s Hs Hv.
    + apply elem_of_cons in Hs as [Hs | Hs]; [inversion Hs; congruence |].
      apply elem_of_cons in Hs as [Hs | Hs]; [discriminate |].
      apply list_elem_of_singleton in Hs. discriminate.
    + apply elem_of_cons in Hs as [Hs | Hs]; [discriminate |].
      apply elem_of_cons in Hs as [Hs | Hs]; [inversion Hs; congruence |].
      apply list_elem_of_singleton in Hs. discriminate.
Qed.

(** C7.  When [input] reads exactly "q", the loop ends and nothing is
    written after the prompt of that read.  On any other line the loop
    runs the graph on the state with the line added as a user message;
    the run completed, it prints the text of the last message if that is
    an assistant message and "Invalid response received." if not, then
    goes on with the next line; the run raising, the loop raises and
    prints nothing. *)
Theorem chatbot_loop_behaviour :
  (forall rest state p,
      chatbot_loop W llm_invoke tool_search_run (lit "q" :: rest) state p
      = (Ok state, after_write (Prompt prompt_text) p))
  /\ (forall user_input rest state p state' p1,
        user_input <> lit "q" ->
        graph_invoke (add_user_input user_input state)
                     (after_write (Prompt prompt_text) p) = (Ok state', p1) ->
        exists response,
          last (messages state') = Some response
          /\ chatbot_loop W llm_invoke tool_search_run (user_input :: rest) state p
             = chatbot_loop W llm_invoke tool_search_run rest state'
                 (after_write
                    (Printed (if isinstance response AI
                              then content response
                              else lit "Invalid response received.")) p1))
  /\ (forall user_input rest state p e p1,
        user_input <> lit "q" ->
        graph_invoke (add_user_input user_input state)
                     (after_write (Prompt prompt_text) p) = (Raise e, p1) ->
        chatbot_loop W llm_invoke tool_search_run (user_input :: rest) state p
        = (Raise e, p1)).
Proof.
  split_and!; [apply chatbot_loop_quit | |].
  - intros user_input rest state p state' p1 Hq H.
    destruct (turn_step _ _ _ _ _ H) as (response & Hlast & Hturn).
    exists response. split; [done |].
    by rewrite (chatbot_loop_turn _ _ _ _ Hq), (bind_step _ _ _ _ _ Hturn).
  - intros user_input rest state p e p1 Hq H.
    rewrite (chatbot_loop_turn _ _ _ _ Hq).
    apply bind_raise. unfold turn. by apply bind_raise.
Qed.

(** C10.  With a model that returns assistant messages: the message a
    stage appends is an assistant message in every branch; the state a
    completed run returns ends in an assistant message; and a
    completed turn of the loop finds [isinstance(response, AIMessage)]
    true, prints the text of that message and leaves a state from which
    the same holds of the next turn. *)
Theorem completed_run_ends_with_assistant_message :
  assistant_replies llm_invoke -> foreign_reply_ids llm_invoke ->
  (forall n f st w st' w',
      node_fn n = Some f -> f st w = (Ok st', w') ->
      exists x, messages st' = messages st ++ [x] /\ role x = AI)
  /\ (forall input p st p',
        Forall (drawn_before (uuid_count p)) (messages input) ->
        graph_invoke input p = (Ok st, p') ->
        exists r, last (messages st) = Some r /\ isinstance r AI = true)
  /\ (forall user_input state p state' p',
        channel_ok (uuid_count p) (messages state) ->
        turn W llm_invoke tool_search_run user_input state p = (Ok state', p') ->
        channel_ok (uuid_count p') (messages state')
        /\ exists r, last (messages state') = Some r
                     /\ isinstance r AI = true
                     /\ stdout p' = stdout p ++ [Printed (content r)]).
Proof.
  intros Hai Hforeign. split_and!.
  - intros n f st w st' w' Hn Hf.
    destruct (stage_new_message n f st st' w w' Hn Hf) as (x & -> & Hx).
    exists x. split; [done |].
    destruct Hx as [[Hr _] | [[prompt Hr] _]]; [done | by eapply Hai].
  - intros input p st p' Hdr H.
    destruct (invoke_last _ _ _ _ Hai Hforeign Hdr H) as (_ & _ & r & Hlast & Hr).
    exists r. split; [done |]. by apply bool_decide_eq_true.
  - intros user_input state p state' p' [Hid Hnd Hdr] H.
    apply turn_inv in H as (p1 & response & H & Hlast & ->).
    assert (Hin : Forall (drawn_before (uuid_count p))
                    (messages (add_user_input user_input state))).
    { simpl. apply Forall_app. split; [done |].
      constructor; [| done]. intros n Hn. discriminate. }
    destruct (invoke_last _ _ _ _ Hai Hforeign Hin H) as (Hok & Hout & r & Hlast' & Hr).
    rewrite Hlast in Hlast'. inversion Hlast'; subst r.
    assert (Hi : isinstance response AI = true) by (by apply bool_decide_eq_true).
    split; [done |]. exists response. rewrite Hi. simpl.
    split_and!; [done | done | by rewrite Hout].
Qed.

(** ** Further properties of the stages *)

(** X1.  When the rewriter returns, the flag it sets tells whether the
    input ended in a user message with visible text. *)
Theorem rewriter_flag_iff (st st' : State) (w w' : W) :
  processing_node W llm_invoke st w = (Ok st', w') ->
  (valid_input st' = true
   <-> exists m, last (messages st) = Some m /\ role m = Human
                 /\ ~ whitespace_only (content m)).
Proof.
  unfold processing_node. intros H.
  destruct (last (messages st)) as [m|] eqn:Hlast.
  - destruct (isinstance m Human) eqn:Hh; simpl in H.
    + destruct (is_empty (strip (content m))) eqn:He.
      * inversion H; subst; simpl. split; [discriminate |].
        intros (m' & [= <-] & _ & Hc). apply is_empty_strip in He. contradiction.
      * apply bind_Ok in H as (r & w1 & _ & H). inversion H; subst; simpl.
        split; [| done]. intros _. exists m.
        split_and!; [done | by apply isinstance_true | by apply is_empty_strip_false].
    + inversion H; subst; simpl. split; [discriminate |].
      intros (m' & [= <-] & Hr & _). apply isinstance_false in Hh. contradiction.
  - inversion H; subst; simpl. split; [discriminate |].
    intros (m' & Hm' & _). discriminate.
Qed.

(** X2.  When the search stage or the formatter returns, its input was
    not empty and the flag it sets tells whether the input ended in an
    assistant message. *)
Theorem later_stage_flag_iff (n : Node.t) (f : State -> M W State)
    (st st' : State) (w w' : W) :
  n = Node.process_search \/ n = Node.format_output ->
  node_fn n = Some f -> f st w = (Ok st', w') ->
  exists q, last (messages st) = Some q
            /\ (valid_input st' = true <-> role q = AI).
Proof.
  intros Hn Hf H.
  assert (Hq : exists q, last (messages st) = Some q).
  { destruct (last (messages st)) as [q|] eqn:Hlast; [by exists q |].
    apply last_None in Hlast.
    destruct Hn as [-> | ->]; simpl in Hf; inversion Hf; subst f.
    - by rewrite (process_search_empty W tool_search_run st w Hlast) in H.
    - by rewrite (format_output_empty W llm_invoke st w Hlast) in H. }
  destruct Hq as [q Hlast]. exists q. split; [done |].
  rewrite <- isinstance_true.
  destruct Hn as [-> | ->]; simpl in Hf; inversion Hf; subst f.
  - rewrite (process_search_nonempty W tool_search_run st q w Hlast) in H.
    destruct (isinstance q AI).
    + destruct (tool_search_run (content q) w) as [[r|e] w1]; inversion H; subst; done.
    + inversion H; subst; simpl. split; discriminate.
  - rewrite (format_output_nonempty W llm_invoke st q w Hlast) in H.
    destruct (isinstance q AI).
    + destruct (llm_invoke (format_prompt (content q)) w) as [[r|e] w1];
        inversion H; subst; done.
    + inversion H; subst; simpl. split; discriminate.
Qed.

(** X3.  On a state whose message list ends in an assistant message,
    the formatter returns the input messages followed by the reply of
    the model to the system instruction and the text of that message,
    with [valid_input] true. *)
Theorem format_output_appends_report
    (st : State) (q r : Message) (w w' : W) :
  assistant_replies llm_invoke ->
  last (messages st) = Some q -> role q = AI ->
  llm_invoke [SystemMessage (lit format_instruction); HumanMessage (content q)] w
  = (Ok r, w') ->
  format_output W llm_invoke st w = (Ok (mkState (messages st ++ [r]) true), w')
  /\ role r = AI.
Proof.
  intros Hai Hlast Hq Hr. split; [| by eapply Hai].
  apply isinstance_true in Hq.
  rewrite (format_output_nonempty W llm_invoke st q w Hlast), Hq.
  unfold format_prompt. by rewrite Hr.
Qed.

(** X4.  No stage catches what a collaborator raises: on an input that
    passes its guard, a stage whose call raises an exception raises that
    exception, the outside world being as the call left it. *)
Theorem stages_propagate_exceptions (st : State) (m : Message) (e : exn) (w w' : W) :
  last (messages st) = Some m ->
  (role m = Human -> ~ whitespace_only (content m) ->
   llm_invoke (rewrite_prompt (content m)) w = (Raise e, w') ->
   processing_node W llm_invoke st w = (Raise e, w'))
  /\ (role m = AI -> tool_search_run (content m) w = (Raise e, w') ->
      process_search W tool_search_run st w = (Raise e, w'))
  /\ (role m = AI -> llm_invoke (format_prompt (content m)) w = (Raise e, w') ->
      format_output W llm_invoke st w = (Raise e, w')).
Proof.
  intros Hlast. split_and!.
  - intros Hh Hc He.
    by rewrite (processing_node_success W llm_invoke st m w Hlast Hh Hc), He.
  - intros Ha He. apply isinstance_true in Ha.
    by rewrite (process_search_nonempty W tool_search_run st m w Hlast), Ha, He.
  - intros Ha He. apply isinstance_true in Ha.
    by rewrite (format_output_nonempty W llm_invoke st m w Hlast), Ha, He.
Qed.

(** ** Further properties of the graph *)

Lemma quiet_ret {A} (a : A) : quiet (W := W) (ret a).
Proof. by intros p. Qed.

Lemma quiet_bind {A B} (c : M (Proc W) A) (k : A -> M (Proc W) B) :
  quiet c -> (forall a, quiet (k a)) -> quiet (bind c k).
Proof.
  intros Hc Hk p. unfold bind. specialize (Hc p).
  destruct (c p) as [[a|e] p1]; simpl in *; [| done].
  by rewrite Hk.
Qed.

Lemma quiet_in_world {A} (c : M W A) : quiet (in_world c).
Proof. intros p. unfold in_world. by destruct (c (world p)). Qed.

Lemma quiet_with_uuid {A} (c : M nat A) : quiet (W := W) (with_uuid c).
Proof. intros p. unfold with_uuid. by destruct (c (uuid_count p)). Qed.

Lemma quiet_superstep (f : State -> M W State) (ch : State) : quiet (superstep f ch).
Proof.
  unfold superstep. apply quiet_bind; [apply quiet_in_world |].
  intros upd. unfold update_channels.
  apply quiet_bind; [apply quiet_with_uuid | intros ms; apply quiet_ret].
Qed.

Lemma quiet_run (fuel : nat) (n : Node.t) (ch : State) (log : list (Node.t * State)) :
  quiet (run_from fuel n ch log).
Proof.
  revert n ch log. induction fuel as [|fuel IH]; intros n ch log; simpl.
  - destruct (node_fn n); [by intros p | apply quiet_ret].
  - destruct (node_fn n) as [f|]; [| apply quiet_ret].
    apply quiet_bind; [apply quiet_superstep | intros ch'; apply IH].
Qed.

Lemma quiet_invoke (input : State) : quiet (graph_invoke input).
Proof.
  unfold invoke, invoke_log.
  apply quiet_bind; [| intros r; apply quiet_ret].
  apply quiet_bind; [| intros ch; apply quiet_run].
  unfold update_channels.
  apply quiet_bind; [apply quiet_with_uuid | intros ms; apply quiet_ret].
Qed.

(** X5.  A turn of the loop that completes adds one line to the
    terminal, the text of the last message of the run if that is an
    assistant message and "Invalid response received." if not; a turn
    that raises adds nothing. *)
Theorem turn_prints_one_line (user_input : pystr) (state : State) (p : Proc W) :
  match turn W llm_invoke tool_search_run user_input state p with
  | (Ok state', p') =>
      exists response,
        last (messages state') = Some response
        /\ stdout p' = stdout p ++ [Printed (if isinstance response AI
                                            then content response
                                            else lit "Invalid response received.")]
  | (Raise _, p') => stdout p' = stdout p
  end.
Proof.
  pose proof (quiet_invoke (add_user_input user_input state) p) as Hq.
  destruct (graph_invoke (add_user_input user_input state) p) as [[st'|e] p1] eqn:H.
  - destruct (turn_step _ _ _ _ _ H) as (response & Hlast & ->).
    exists response. split; [done |]. simpl. by rewrite <- Hq.
  - unfold turn. by rewrite (bind_raise _ _ _ _ _ H).
Qed.

(** X6.  A run does not read the [valid_input] it is given: the flag
    left by the turn before has no part in the next run. *)
Theorem invoke_ignores_input_flag (ms : list Message) (b1 b2 : bool) (p : Proc W) :
  graph_invoke_log (mkState ms b1) p = graph_invoke_log (mkState ms b2) p
  /\ forall user_input,
       turn W llm_invoke tool_search_run user_input (mkState ms b1) p
       = turn W llm_invoke tool_search_run user_input (mkState ms b2) p.
Proof.
  assert (Hlog : forall ms p, graph_invoke_log (mkState ms b1) p
                              = graph_invoke_log (mkState ms b2) p).
  { clear ms p. intros ms p. unfold invoke_log, update_channels.
    cbv beta iota delta [bind ret]. simpl messages.
    destruct (with_uuid (add_messages [] ms) p) as [[merged|e] p1]; reflexivity. }
  split; [apply Hlog |].
  intros user_input. unfold turn, invoke.
  change (add_user_input user_input (mkState ms b1))
    with (mkState (ms ++ [HumanMessage user_input]) b1).
  change (add_user_input user_input (mkState ms b2))
    with (mkState (ms ++ [HumanMessage user_input]) b2).
  unfold bind. by rewrite (Hlog (ms ++ [HumanMessage user_input]) p).
Qed.

(** X7.  A completed run called the stages in order, each at most once,
    starting with the rewriter; every stage but the last one left
    [valid_input] true, and the state after the last one is the result
    of the run. *)
Theorem run_is_linear (input st : State) (log : list (Node.t * State)) (p p' : Proc W) :
  graph_invoke_log input p = (Ok (st, log), p') ->
  (fst <$> log = [Node.process_input]
   \/ fst <$> log = [Node.process_input; Node.process_search]
   \/ fst <$> log = [Node.process_input; Node.process_search; Node.format_output])
  /\ last (snd <$> log) = Some st
  /\ (forall i n s, log !! i = Some (n, s) -> (S i < length log)%nat ->
                    valid_input s = true).
Proof.
  intros H. apply invoke_log_inv in H as (ms & k & _ & H).
  apply run_shape in H as (s1 & p1 & _ & H).
  destruct H as [(Hv1 & -> & -> & _) | (Hv1 & s2 & p2 & _ & H)].
  { split_and!; [by left | done |].
    intros [|i] n s Hi Hlt; simpl in *; lia. }
  destruct H as [(Hv2 & -> & -> & _) | (Hv2 & s3 & _ & -> & ->)].
  - split_and!; [right; by left | done |].
    intros [|[|i]] n s Hi Hlt; simpl in *; [by inversion Hi; subst | lia | lia].
  - split_and!; [right; by right | done |].
    intros [|[|[|i]]] n s Hi Hlt; simpl in *;
      [by inversion Hi; subst | by inversion Hi; subst | lia | lia].
Qed.

(** *** Runs, step by step *)

Lemma superstep_forward (f : State -> M W State) (ch : State) (p : Proc W)
    (x : Message) (b : bool) (w' : W) :
  channel_ok (uuid_count p) (messages ch) ->
  f ch (world p) = (Ok (mkState (messages ch ++ [x]) b), w') ->
  msg_id x = None ->
  superstep f ch p
  = (Ok (mkState (messages ch ++ [stamped x (uuid_count p)]) b),
     mkProc w' (S (uuid_count p)) (stdout p))
  /\ channel_ok (S (uuid_count p)) (messages ch ++ [stamped x (uuid_count p)]).
Proof.
  intros Hok Hf Hid. split; [| by apply channel_ok_snoc].
  unfold superstep.
  assert (Hw : in_world (f ch) p
               = (Ok (mkState (messages ch ++ [x]) b),
                  mkProc w' (uuid_count p) (stdout p))).
  { unfold in_world. by rewrite Hf. }
  rewrite (bind_step _ _ _ _ _ Hw).
  unfold update_channels, bind, with_uuid. simpl.
  rewrite (add_messages_extend _ x _ _ _ Hok (assign_id_None x _ Hid)).
  unfold ret, stamped.
  by rewrite (channel_ok_snoc_fresh _
                (mkMessage (role x) (content x) (Some (Uuid4 (uuid_count p))))
                _ Hok eq_refl).
Qed.

Lemma superstep_raise (f : State -> M W State) (ch : State) (p : Proc W)
    (e : exn) (w' : W) :
  f ch (world p) = (Raise e, w') ->
  superstep f ch p = (Raise e, mkProc w' (uuid_count p) (stdout p)).
Proof.
  intros Hf. unfold superstep. apply bind_raise. unfold in_world. by rewrite Hf.
Qed.

(** The first write of a turn: the user message gets its id. *)
Lemma invoke_log_start (user_input : pystr) (state : State) (p : Proc W) :
  channel_ok (uuid_count p) (messages state) ->
  graph_invoke_log (add_user_input user_input state) p
  = run_from recursion_limit Node.process_input
      (mkState (messages state ++ [stamped (HumanMessage user_input) (uuid_count p)])
               (valid_input state))
      [] (mkProc (world p) (S (uuid_count p)) (stdout p)).
Proof.
  intros Hok. unfold invoke_log.
  assert (H0 : update_channels (mkState [] false) (add_user_input user_input state) p
               = (Ok (mkState (messages state
                               ++ [stamped (HumanMessage user_input) (uuid_count p)])
                              (valid_input state)),
                  mkProc (world p) (S (uuid_count p)) (stdout p))).
  { unfold update_channels, bind, with_uuid. simpl.
    by rewrite (add_messages_init_user _ _ _ Hok). }
  by rewrite (bind_step _ _ _ _ _ H0).
Qed.

Lemma rewriter_diagnostic (st : State) (m : Message) (w : W) :
  last (messages st) = Some m -> whitespace_only (content m) ->
  processing_node W llm_invoke st w
  = (Ok (mkState (messages st ++ [no_user_input]) false), w).
Proof.
  intros Hlast Hc. unfold processing_node. rewrite Hlast.
  destruct (isinstance m Human); simpl; [| reflexivity].
  apply is_empty_strip in Hc. by rewrite Hc.
Qed.

Lemma turn_finish (user_input : pystr) (state state' : State) (p p1 : Proc W)
    (log : list (Node.t * State)) (response : Message) :
  graph_invoke_log (add_user_input user_input state) p = (Ok (state', log), p1) ->
  last (messages state') = Some response ->
  turn W llm_invoke tool_search_run user_input state p
  = (Ok state',
     after_write (Printed (if isinstance response AI
                           then content response
                           else lit "Invalid response received.")) p1).
Proof.
  intros Hlog Hlast.
  assert (H : graph_invoke (add_user_input user_input state) p = (Ok state', p1)).
  { unfold invoke. by rewrite (bind_step _ _ _ _ _ Hlog). }
  destruct (turn_step _ _ _ _ _ H) as (r & Hr & ->).
  rewrite Hlast in Hr. by inversion Hr.
Qed.

(** X8.  A turn on a line that holds nothing but white space, the empty
    line included: the rewriter answers with its diagnostic and the run
    ends there.  The history gains the user message and the diagnostic,
    [valid_input] is false, the diagnostic is printed, and no
    collaborator was called. *)
Theorem blank_turn (user_input : pystr) (state : State) (p : Proc W) :
  channel_ok (uuid_count p) (messages state) ->
  whitespace_only user_input ->
  turn W llm_invoke tool_search_run user_input state p
  = (Ok (mkState (messages state
                  ++ [stamped (HumanMessage user_input) (uuid_count p);
                      stamped (AIMessage (lit "No user input received."))
                              (S (uuid_count p))])
                 false),
     mkProc (world p) (S (S (uuid_count p)))
            (stdout p ++ [Printed (lit "No user input received.")])).
Proof.
  intros Hok Hblank.
  pose proof (channel_ok_snoc _ (stamped (HumanMessage user_input) (uuid_count p))
                _ Hok eq_refl) as Hok0.
  set (ch0 := mkState (messages state
                       ++ [stamped (HumanMessage user_input) (uuid_count p)])
                      (valid_input state)).
  set (p0 := mkProc (world p) (S (uuid_count p)) (stdout p)).
  destruct (superstep_forward (processing_node W llm_invoke) ch0 p0
              no_user_input false (world p)) as [H1 _]; [done | | done |].
  { apply (rewriter_diagnostic ch0 (stamped (HumanMessage user_input) (uuid_count p)));
      [apply last_snoc | done]. }
  pose proof (run_exit_after_rewriter _ _ _ _ H1 eq_refl) as Hrun.
  subst ch0 p0.
  rewrite <- (invoke_log_start user_input state p Hok) in Hrun.
  rewrite (turn_finish _ _ _ _ _ _ (stamped no_user_input (S (uuid_count p))) Hrun);
    [| apply last_snoc].
  unfold after_write. cbn [messages world uuid_count stdout].
  rewrite <- app_assoc. reflexivity.
Qed.

(** X9.  A turn through the three stages.  When the model answers the
    rewriting request with an assistant message, the search tool answers
    the text of that message and the model answers the formatting
    request on the wrapped results, the replies bringing no id, the
    history gains four messages in this order: the user message, the
    query, "Search results: " with the results, and the report.
    [valid_input] is true and the text of the report is printed, or
    "Invalid response received." if the report is not an assistant
    message. *)
Theorem full_turn (user_input results : pystr) (query report : Message)
    (state : State) (p : Proc W) (w1 w2 w3 : W) :
  channel_ok (uuid_count p) (messages state) ->
  ~ whitespace_only user_input ->
  llm_invoke [SystemMessage (lit rewrite_instruction); HumanMessage user_input] (world p)
  = (Ok query, w1) ->
  role query = AI -> msg_id query = None ->
  tool_search_run (content query) w1 = (Ok results, w2) ->
  llm_invoke [SystemMessage (lit format_instruction);
              HumanMessage (lit "Search results: " ++ results)] w2
  = (Ok report, w3) ->
  msg_id report = None ->
  turn W llm_invoke tool_search_run user_input state p
  = (Ok (mkState (messages state
                  ++ [stamped (HumanMessage user_input) (uuid_count p);
                      stamped query (S (uuid_count p));
                      stamped (AIMessage (lit "Search results: " ++ results))
                              (S (S (uuid_count p)));
                      stamped report (S (S (S (uuid_count p))))])
                 true),
     mkProc w3 (S (S (S (S (uuid_count p)))))
            (stdout p ++ [Printed (if isinstance report AI
                                   then content report
                                   else lit "Invalid response received.")])).
Proof.
  intros Hok Hvis Hq Hqr Hqid Hs Hr Hrid.
  set (k := uuid_count p) in *.
  set (human := stamped (HumanMessage user_input) k).
  set (wrapped := AIMessage (lit "Search results: " ++ results)).
  set (ch0 := mkState (messages state ++ [human]) (valid_input state)).
  set (ch1 := mkState (messages ch0 ++ [stamped query (S k)]) true).
  set (ch2 := mkState (messages ch1 ++ [stamped wrapped (S (S k))]) true).
  set (ch3 := mkState (messages ch2 ++ [stamped report (S (S (S k)))]) true).
  set (p0 := mkProc (world p) (S k) (stdout p)).
  set (p1 := mkProc w1 (S (S k)) (stdout p)).
  set (p2 := mkProc w2 (S (S (S k))) (stdout p)).
  set (p3 := mkProc w3 (S (S (S (S k)))) (stdout p)).
  assert (Hok0 : channel_ok (S k) (messages ch0))
    by (by apply channel_ok_snoc).
  assert (Hf1 : processing_node W llm_invoke ch0 (world p)
                = (Ok (mkState (messages ch0 ++ [query]) true), w1)).
  { rewrite (processing_node_success W llm_invoke ch0 human (world p));
      [| apply last_snoc | done | done].
    unfold rewrite_prompt. change (content human) with user_input. by rewrite Hq. }
  destruct (superstep_forward (processing_node W llm_invoke) ch0 p0 query true w1
              Hok0 Hf1 Hqid) as [H1 Hok1].
  change (superstep (processing_node W llm_invoke) ch0 p0 = (Ok ch1, p1)) in H1.
  change (channel_ok (S (S k)) (messages ch1)) in Hok1.
  assert (Hf2 : process_search W tool_search_run ch1 w1
                = (Ok (mkState (messages ch1 ++ [wrapped]) true), w2)).
  { rewrite (process_search_nonempty W tool_search_run ch1 (stamped query (S k)) w1);
      [| apply last_snoc].
    assert (Hi : isinstance (stamped query (S k)) AI = true)
      by (by apply isinstance_true).
    rewrite Hi. change (content (stamped query (S k))) with (content query).
    by rewrite Hs. }
  destruct (superstep_forward (process_search W tool_search_run) ch1 p1 wrapped true w2
              Hok1 Hf2 eq_refl) as [H2 Hok2].
  change (superstep (process_search W tool_search_run) ch1 p1 = (Ok ch2, p2)) in H2.
  change (channel_ok (S (S (S k))) (messages ch2)) in Hok2.
  assert (Hf3 : format_output W llm_invoke ch2 w2
                = (Ok (mkState (messages ch2 ++ [report]) true), w3)).
  { rewrite (format_output_nonempty W llm_invoke ch2 (stamped wrapped (S (S k))) w2);
      [| apply last_snoc].
    assert (Hi : isinstance (stamped wrapped (S (S k))) AI = true) by reflexivity.
    rewrite Hi. unfold format_prompt.
    change (content (stamped wrapped (S (S k))))
      with (lit "Search results: " ++ results).
    by rewrite Hr. }
  destruct (superstep_forward (format_output W llm_invoke) ch2 p2 report true w3
              Hok2 Hf3 Hrid) as [H3 _].
  change (superstep (format_output W llm_invoke) ch2 p2 = (Ok ch3, p3)) in H3.
  assert (Hrun : graph_invoke_log (add_user_input user_input state) p
                 = (Ok (ch3, [(Node.process_input, ch1); (Node.process_search, ch2);
                              (Node.format_output, ch3)]), p3)).
  { rewrite (invoke_log_start user_input state p Hok). fold k human ch0 p0.
    unfold recursion_limit.
    rewrite (run_stage _ Node.process_input _ _ _ eq_refl), (bind_step _ _ _ _ _ H1).
    change (next_node Node.process_input ch1) with Node.process_search.
    rewrite (run_stage _ Node.process_search _ _ _ eq_refl), (bind_step _ _ _ _ _ H2).
    change (next_node Node.process_search ch2) with Node.format_output.
    rewrite (run_stage _ Node.format_output _ _ _ eq_refl), (bind_step _ _ _ _ _ H3).
    apply run_END. }
  rewrite (turn_finish _ _ _ _ _ _ (stamped report (S (S (S k)))) Hrun);
    [| apply last_snoc].
  unfold ch3, ch2, ch1, ch0, p3, after_write.
  cbn [messages world uuid_count stdout]. rewrite <- !app_assoc.
  reflexivity.
Qed.

(** *** When a collaborator fails *)

Lemma turn_raise (user_input : pystr) (state : State) (p p1 : Proc W) (e : exn) :
  graph_invoke_log (add_user_input user_input state) p = (Raise e, p1) ->
  turn W llm_invoke tool_search_run user_input state p = (Raise e, p1).
Proof.
  intros H. unfold turn. apply bind_raise. unfold invoke. by apply bind_raise.
Qed.

(** The message the rewriter appends when it clears the flag. *)
Lemma rewriter_flag_false_message (st : State) (x : Message) (w w' : W) :
  processing_node W llm_invoke st w = (Ok (mkState (messages st ++ [x]) false), w') ->
  content x = lit "No user input received." /\ w' = w.
Proof.
  unfold processing_node. intros H.
  assert (Hd : forall y, (Ok (mkState (messages st ++ [no_user_input]) false), w)
                         = (Ok (mkState (messages st ++ [y]) false), w') ->
                         content y = lit "No user input received." /\ w' = w).
  { intros y Hy. inversion Hy as [[Hm Hw]]. apply app_inj_tail in Hm as [_ <-]. done. }
  destruct (last (messages st)) as [m|]; [| by apply Hd].
  destruct (negb (isinstance m Human)); [by apply Hd |].
  destruct (is_empty (strip (content m))); [by apply Hd |].
  apply bind_Ok in H as (r & w1 & _ & H). inversion H.
Qed.

(** *** The loop over many lines *)

(** X14.  What follows the first "q" is not read: it has no effect on
    the result of the loop. *)
Theorem chatbot_loop_stops_at_q (lines rest : list pystr) (state : State) (p : Proc W) :
  chatbot_loop W llm_invoke tool_search_run (lines ++ lit "q" :: rest) state p
  = chatbot_loop W llm_invoke tool_search_run (lines ++ [lit "q"]) state p.
Proof.
  revert state p. induction lines as [|line lines IH]; intros state p.
  - by rewrite !app_nil_l, !chatbot_loop_quit.
  - rewrite <- !app_comm_cons.
    destruct (decide (line = lit "q")) as [-> | Hq].
    + by rewrite !chatbot_loop_quit.
    + rewrite !(chatbot_loop_turn _ _ _ _ Hq). unfold bind.
      destruct (turn W llm_invoke tool_search_run line state
                  (after_write (Prompt prompt_text) p)) as [[st1|e] p1]; [apply IH | done].
Qed.

(** *** What a cleared flag and an exception tell *)

(** X16.  A stage that returns with [valid_input] false appended its own
    diagnostic and called no collaborator. *)
Theorem cleared_flag_means_diagnostic (st st' : State) (w w' : W) :
  valid_input st' = false ->
  (processing_node W llm_invoke st w = (Ok st', w') ->
   messages st' = messages st ++ [AIMessage (lit "No user input received.")]
   /\ w' = w)
  /\ (process_search W tool_search_run st w = (Ok st', w') ->
      messages st' = messages st ++ [AIMessage (lit "No search query received.")]
      /\ w' = w)
  /\ (format_output W llm_invoke st w = (Ok st', w') ->
      messages st' = messages st ++ [AIMessage (lit "No search results received.")]
      /\ w' = w).
Proof.
  intros Hv. split_and!; intros H.
  - unfold processing_node in H.
    destruct (last (messages st)) as [m|]; [| by inversion H].
    destruct (negb (isinstance m Human)); [by inversion H |].
    destruct (is_empty (strip (content m))); [by inversion H |].
    apply bind_Ok in H as (r & w1 & _ & H). inversion H; subst. discriminate.
  - destruct (last (messages st)) as [q|] eqn:Hlast.
    + rewrite (process_search_nonempty W tool_search_run st q w Hlast) in H.
      destruct (isinstance q AI); [| by inversion H].
      destruct (tool_search_run (content q) w) as [[r|e] w1];
        inversion H; subst; discriminate.
    + apply last_None in Hlast.
      by rewrite (process_search_empty W tool_search_run st w Hlast) in H.
  - destruct (last (messages st)) as [q|] eqn:Hlast.
    + rewrite (format_output_nonempty W llm_invoke st q w Hlast) in H.
      destruct (isinstance q AI); [| by inversion H].
      destruct (llm_invoke (format_prompt (content q)) w) as [[r|e] w1];
        inversion H; subst; discriminate.
    + apply last_None in Hlast.
      by rewrite (format_output_empty W llm_invoke st w Hlast) in H.
Qed.

Lemma stage_raise_inv (n : Node.t) (f : State -> M W State) (st : State)
    (e : exn) (w w' : W) :
  node_fn n = Some f -> messages st <> [] -> f st w = (Raise e, w') ->
  (exists prompt, llm_invoke prompt w = (Raise e, w'))
  \/ (exists query, tool_search_run query w = (Raise e, w')).
Proof.
  intros Hn Hne H.
  destruct (last (messages st)) as [m|] eqn:Hlast; [| by apply last_None in Hlast].
  destruct n; simpl in Hn; inversion Hn; subst f; clear Hn.
  - unfold processing_node in H. rewrite Hlast in H.
    destruct (negb (isinstance m Human)); [by inversion H |].
    destruct (is_empty (strip (content m))); [by inversion H |].
    unfold bind in H.
    destruct (llm_invoke (rewrite_prompt (content m)) w) as [[r|e'] w1] eqn:Hllm;
      inversion H; subst.
    left. by eexists.
  - rewrite (process_search_nonempty W tool_search_run st m w Hlast) in H.
    destruct (isinstance m AI); [| by inversion H].
    destruct (tool_search_run (content m) w) as [[r|e'] w1] eqn:Hs; inversion H; subst.
    right. by eexists.
  - rewrite (format_output_nonempty W llm_invoke st m w Hlast) in H.
    destruct (isinstance m AI); [| by inversion H].
    destruct (llm_invoke (format_prompt (content m)) w) as [[r|e'] w1] eqn:Hllm;
      inversion H; subst.
    left. by eexists.
Qed.

Lemma rewriter_raise_inv (st : State) (e : exn) (w w' : W) :
  processing_node W llm_invoke st w = (Raise e, w') ->
  exists prompt, llm_invoke prompt w = (Raise e, w').
Proof.
  unfold processing_node. intros H.
  destruct (last (messages st)) as [m|]; [| by inversion H].
  destruct (negb (isinstance m Human)); [by inversion H |].
  destruct (is_empty (strip (content m))); [by inversion H |].
  unfold bind in H.
  destruct (llm_invoke (rewrite_prompt (content m)) w) as [[r|e'] w1] eqn:Hllm;
    inversion H; subst. by eexists.
Qed.

Lemma superstep_raise_inv (f : State -> M W State) (ch : State) (p p' : Proc W)
    (e : exn) :
  superstep f ch p = (Raise e, p') ->
  exists w', f ch (world p) = (Raise e, w').
Proof.
  unfold superstep, bind, in_world. intros H.
  destruct (f ch (world p)) as [[upd|e'] w1].
  - destruct (update_channels_total ch upd (mkProc w1 (uuid_count p) (stdout p)))
      as (ms & k & Hu & _).
    rewrite Hu in H. discriminate.
  - inversion H; subst. by eexists.
Qed.

(** X17.  The graph and the loop raise nothing of their own.  An
    exception of a run is an exception that the model or the search tool
    raised during it: inside the graph no stage indexes an empty list,
    and the recursion limit is not reached.  A completed run returns a
    message list that is not empty, so that a turn raises only what its
    run raised. *)
Theorem exceptions_come_from_collaborators (input : State) (p : Proc W) :
  (forall e p', graph_invoke input p = (Raise e, p') ->
                exists w w',
                  (exists prompt, llm_invoke prompt w = (Raise e, w'))
                  \/ (exists query, tool_search_run query w = (Raise e, w')))
  /\ (forall st p', graph_invoke input p = (Ok st, p') -> messages st <> [])
  /\ (forall user_input state e p',
        turn W llm_invoke tool_search_run user_input state p = (Raise e, p') ->
        graph_invoke (add_user_input user_input state) p = (Raise e, p')).
Proof.
  split_and!.
  - intros e p' H. unfold invoke, bind in H.
    destruct (graph_invoke_log input p) as [[r|e'] p1] eqn:Hlog; [discriminate |].
    inversion H; subst e' p1. clear H.
    unfold invoke_log, bind in Hlog.
    destruct (update_channels_total (mkState [] false) input p) as (ms & k & Hu & _).
    rewrite Hu in Hlog. change (next_node Node.START _) with Node.process_input in Hlog.
    unfold recursion_limit in Hlog.
    rewrite (run_stage _ Node.process_input _ _ _ eq_refl) in Hlog. unfold bind in Hlog.
    destruct (superstep (processing_node W llm_invoke) _ _) as [[s1|e1] p1] eqn:H1.
    2:{ inversion Hlog; subst. apply superstep_raise_inv in H1 as [w' H1].
        apply rewriter_raise_inv in H1. eexists _, _. by left. }
    pose proof (superstep_nonempty Node.process_input _ _ _ _ _ eq_refl H1) as Hne1.
    unfold next_node at 1, route in Hlog.
    destruct (valid_input s1); [| by rewrite run_END in Hlog].
    rewrite (run_stage _ Node.process_search _ _ _ eq_refl) in Hlog. unfold bind in Hlog.
    destruct (superstep (process_search W tool_search_run) _ _) as [[s2|e2] p2] eqn:H2.
    2:{ inversion Hlog; subst. apply superstep_raise_inv in H2 as [w' H2].
        eexists _, _. by eapply (stage_raise_inv Node.process_search). }
    pose proof (superstep_nonempty Node.process_search _ _ _ _ _ eq_refl H2) as Hne2.
    unfold next_node at 1, route in Hlog.
    destruct (valid_input s2); [| by rewrite run_END in Hlog].
    rewrite (run_stage _ Node.format_output _ _ _ eq_refl) in Hlog. unfold bind in Hlog.
    destruct (superstep (format_output W llm_invoke) _ _) as [[s3|e3] p3] eqn:H3.
    2:{ inversion Hlog; subst. apply superstep_raise_inv in H3 as [w' H3].
        eexists _, _. by eapply (stage_raise_inv Node.format_output). }
    by rewrite run_END in Hlog.
  - intros st p'. apply invoke_nonempty.
  - intros user_input state e p' H.
    destruct (graph_invoke (add_user_input user_input state) p) as [[st1|e1] p1] eqn:Hinv.
    + destruct (turn_step _ _ _ _ _ Hinv) as (r & _ & Hturn).
      rewrite Hturn in H. discriminate.
    + unfold turn in H. by rewrite (bind_raise _ _ _ _ _ Hinv) in H.
Qed.

(** ** Runs with a model that gives out no id twice *)

Section NewIds.

Variable used : W -> ident -> Prop.
Hypothesis Hnew : new_reply_ids llm_invoke tool_search_run used.

Lemma reply_ids_foreign : foreign_reply_ids llm_invoke.
Proof.
  intros prompt w r w' n Hr Hid.
  destruct (reply_id_new _ _ _ Hnew _ _ _ _ _ Hr Hid) as (Hu & _).
  by apply (Hu n).
Qed.

(** A stage calls a collaborator at most once: what was used stays
    used. *)
Lemma stage_keeps_used (n : Node.t) (f : State -> M W State) (st : State)
    (res : result State) (w w' : W) (i : ident) :
  node_fn n = Some f -> f st w = (res, w') -> used w i -> used w' i.
Proof.
  intros Hn Hf Hi.
  destruct n; simpl in Hn; inversion Hn; subst f; clear Hn.
  - unfold processing_node in Hf.
    destruct (last (messages st)) as [m|]; [| by inversion Hf; subst].
    destruct (negb (isinstance m Human)); [by inversion Hf; subst |].
    destruct (is_empty (strip (content m))); [by inversion Hf; subst |].
    unfold bind in Hf.
    destruct (llm_invoke (rewrite_prompt (content m)) w) as [[r|e] w1] eqn:Hllm;
      inversion Hf; subst; by eapply (used_after_llm _ _ _ Hnew).
  - destruct (last (messages st)) as [q|] eqn:Hlast.
    + rewrite (process_search_nonempty W tool_search_run st q w Hlast) in Hf.
      destruct (isinstance q AI); [| by inversion Hf; subst].
      destruct (tool_search_run (content q) w) as [[r|e] w1] eqn:Hs;
        inversion Hf; subst; by eapply (used_after_search _ _ _ Hnew).
    + apply last_None in Hlast.
      rewrite (process_search_empty W tool_search_run st w Hlast) in Hf.
      by inversion Hf; subst.
  - destruct (last (messages st)) as [q|] eqn:Hlast.
    + rewrite (format_output_nonempty W llm_invoke st q w Hlast) in Hf.
      destruct (isinstance q AI); [| by inversion Hf; subst].
      destruct (llm_invoke (format_prompt (content q)) w) as [[r|e] w1] eqn:Hllm;
        inversion Hf; subst; by eapply (used_after_llm _ _ _ Hnew).
    + apply last_None in Hlast.
      rewrite (format_output_empty W llm_invoke st w Hlast) in Hf.
      by inversion Hf; subst.
Qed.

(** With such a model a superstep appends the message of the node, with
    its class and text. *)
Lemma superstep_appends (n : Node.t) (f : State -> M W State)
    (ch ch' : State) (p p' : Proc W) :
  node_fn n = Some f ->
  channel_ok (uuid_count p) (messages ch) ->
  ids_given_out used (world p) (messages ch) ->
  superstep f ch p = (Ok ch', p') ->
  channel_ok (uuid_count p') (messages ch')
  /\ ids_given_out used (world p') (messages ch')
  /\ stdout p' = stdout p
  /\ exists x x',
       f ch (world p) = (Ok (mkState (messages ch ++ [x]) (valid_input ch')), world p')
       /\ messages ch' = messages ch ++ [x']
       /\ role x' = role x /\ content x' = content x.
Proof.
  intros Hn Hok Hgiven H.
  destruct (superstep_merge n f ch ch' p p' reply_ids_foreign Hn Hok H)
    as (x & x' & Hf & Hx' & Hms & Hok' & Hout).
  destruct (stage_new_message n f ch _ _ _ Hn Hf) as (x0 & Hupd & Hx).
  inversion Hupd as [Hx0]. apply app_inj_tail in Hx0 as [_ <-]. clear Hupd.
  destruct (assign_id_spec x (uuid_count p))
    as (x1 & k1 & Hx1 & Hrole & Hcont & _ & _ & _ & Hnone & Hsame).
  rewrite Hx' in Hx1. inversion Hx1; subst x1 k1. clear Hx1.
  assert (Hfresh : merge_message (messages ch) x' = messages ch ++ [x']
                   /\ forall i, msg_id x' = Some i ->
                                (exists n, i = Uuid4 n) \/ used (world p') i).
  { destruct (msg_id x) as [i|] eqn:Hid.
    - destruct Hx as [[_ Hno] | [[prompt Hr] _]]; [congruence |].
      destruct (reply_id_new _ _ _ Hnew _ _ _ _ _ Hr Hid) as (Hnu & Hnot & Hused).
      assert (Hx : x' = x) by (apply Hsame; unfold has_id; congruence).
      subst x'. split.
      + apply merge_message_fresh. rewrite Hid. intros Hin.
        apply list_elem_of_fmap in Hin as (m & Hm & Hin).
        unfold ids_given_out in Hgiven. rewrite Forall_forall in Hgiven.
        destruct (Hgiven m Hin i (eq_sym Hm)) as [[k ->] | Hu]; [by eapply Hnu | done].
      + intros j Hj. rewrite Hid in Hj. inversion Hj; subst. by right.
    - specialize (Hnone eq_refl). split.
      + by apply (channel_ok_snoc_fresh _ _ _ Hok).
      + intros j Hj. rewrite Hnone in Hj. inversion Hj; subst. left. by eexists. }
  destruct Hfresh as [Happ Hx'given].
  rewrite Happ in Hms.
  split_and!; [done | | done | by exists x, x'].
  rewrite Hms. apply Forall_app. split.
  - eapply Forall_impl; [exact Hgiven |]. intros m Hm i Hi.
    destruct (Hm i Hi) as [? | Hu]; [by left | right].
    by eapply (stage_keeps_used n f ch _ (world p) (world p')).
  - by constructor.
Qed.

(** The outcomes of a run with such a model. *)
Lemma run_outcomes (ch0 st : State) (log : list (Node.t * State)) (p p' : Proc W) :
  channel_ok (uuid_count p) (messages ch0) ->
  ids_given_out used (world p) (messages ch0) ->
  run_from recursion_limit Node.process_input ch0 [] p = (Ok (st, log), p') ->
  channel_ok (uuid_count p') (messages st)
  /\ ids_given_out used (world p') (messages st)
  /\ ((valid_input st = false /\ fst <$> log = [Node.process_input]
       /\ exists d, messages st = messages ch0 ++ [d]
                    /\ content d = lit "No user input received.")
      \/ (valid_input st = false
          /\ fst <$> log = [Node.process_input; Node.process_search]
          /\ (exists a d, messages st = messages ch0 ++ [a; d])
          /\ exists prompt w w' r, llm_invoke prompt w = (Ok r, w') /\ role r <> AI)
      \/ (valid_input st = true
          /\ fst <$> log = [Node.process_input; Node.process_search; Node.format_output]
          /\ exists a b c, messages st = messages ch0 ++ [a; b; c])).
Proof.
  intros Hok Hgiven H.
  apply run_shape in H as (s1 & p1 & H1 & H).
  destruct (superstep_appends Node.process_input _ _ _ _ _ eq_refl Hok Hgiven H1)
    as (Hok1 & Hg1 & _ & x1 & y1 & Hf1 & Hm1 & Hr1 & Hc1).
  destruct H as [(Hv1 & -> & -> & ->) | (Hv1 & s2 & p2 & H2 & H)].
  { split_and!; [done | done |]. left. split_and!; [done | done |].
    exists y1. split; [done |]. rewrite Hv1 in Hf1.
    destruct (rewriter_flag_false_message _ _ _ _ Hf1) as [Hc _]. congruence. }
  destruct (superstep_appends Node.process_search _ _ _ _ _ eq_refl Hok1 Hg1 H2)
    as (Hok2 & Hg2 & _ & x2 & y2 & Hf2 & Hm2 & Hr2 & Hc2).
  assert (Hy2 : role y2 = AI).
  { destruct (stage_new_message Node.process_search _ s1 _ _ _ eq_refl Hf2)
      as (x0 & Hupd & Hx).
    inversion Hupd as [Hx0]. apply app_inj_tail in Hx0 as [_ <-].
    destruct Hx as [[Hr _] | (_ & Hne & _)]; [congruence | done]. }
  destruct H as [(Hv2 & -> & -> & ->) | (Hv2 & s3 & H3 & -> & ->)].
  { split_and!; [done | done |]. right. left.
    split_and!; [done | done | |].
    - exists y1, y2. by rewrite Hm2, Hm1, <- app_assoc.
    - rewrite Hv1 in Hf1.
      destruct (stage_new_message Node.process_input _ ch0 _ _ _ eq_refl Hf1)
        as (x0 & Hupd & Hx).
      inversion Hupd as [Hx0]. apply app_inj_tail in Hx0 as [_ <-]. clear Hupd.
      assert (Hy1 : role x1 <> AI).
      { intros Hai. rewrite <- Hr1 in Hai. apply isinstance_true in Hai.
        rewrite (process_search_nonempty W tool_search_run s1 y1 (world p1)) in Hf2
          by (rewrite Hm1; apply last_snoc).
        rewrite Hai, Hv2 in Hf2.
        destruct (tool_search_run (content y1) (world p1)) as [[r|e] w1];
          inversion Hf2. }
      destruct Hx as [[Hr _] | [[prompt Hr] _]]; [done |].
      by exists prompt, (world p), (world p1), x1. }
  destruct (superstep_appends Node.format_output _ _ _ _ _ eq_refl Hok2 Hg2 H3)
    as (Hok3 & Hg3 & _ & x3 & y3 & Hf3 & Hm3 & Hr3 & Hc3).
  assert (Hv3 : valid_input s3 = true).
  { rewrite (format_output_nonempty W llm_invoke s2 y2 (world p2)) in Hf3
      by (rewrite Hm2; apply last_snoc).
    apply isinstance_true in Hy2. rewrite Hy2 in Hf3.
    destruct (llm_invoke (format_prompt (content y2)) (world p2)) as [[r|e] w1];
      by inversion Hf3. }
  split_and!; [done | done |]. right. right. split_and!; [done | done |].
  exists y1, y2, y3. by rewrite Hm3, Hm2, Hm1, <- !app_assoc.
Qed.

(** The outcomes of a turn of the loop with such a model. *)
Lemma turn_outcomes (user_input : pystr) (state state' : State) (p p' : Proc W) :
  channel_ok (uuid_count p) (messages state) ->
  ids_given_out used (world p) (messages state) ->
  turn W llm_invoke tool_search_run user_input state p = (Ok state', p') ->
  channel_ok (uuid_count p') (messages state')
  /\ ids_given_out used (world p') (messages state')
  /\ ((valid_input state' = false
       /\ exists d, messages state'
                    = messages state
                      ++ [stamped (HumanMessage user_input) (uuid_count p); d]
                    /\ content d = lit "No user input received.")
      \/ (valid_input state' = false
          /\ (exists a d, messages state'
                          = messages state
                            ++ [stamped (HumanMessage user_input) (uuid_count p); a; d])
          /\ exists prompt w w' r, llm_invoke prompt w = (Ok r, w') /\ role r <> AI)
      \/ (valid_input state' = true
          /\ exists a b c, messages state'
                           = messages state
                             ++ [stamped (HumanMessage user_input) (uuid_count p);
                                 a; b; c])).
Proof.
  intros Hok Hgiven H.
  apply turn_inv in H as (p1 & response & H & _ & ->).
  apply invoke_inv in H as (log & H).
  rewrite (invoke_log_start _ _ _ Hok) in H.
  pose proof (channel_ok_snoc _ (stamped (HumanMessage user_input) (uuid_count p))
                _ Hok eq_refl) as Hok0.
  assert (Hg0 : ids_given_out used (world p)
                  (messages state ++ [stamped (HumanMessage user_input) (uuid_count p)])).
  { apply Forall_app. split; [done |]. constructor; [| done].
    intros i Hi. inversion Hi. left. by eexists. }
  destruct (run_outcomes
              (mkState (messages state
                        ++ [stamped (HumanMessage user_input) (uuid_count p)])
                       (valid_input state))
              state' log (mkProc (world p) (S (uuid_count p)) (stdout p)) p1
              Hok0 Hg0 H)
    as (Hok' & Hg' & Hout).
  split_and!; [done | done |].
  cbn [messages] in Hout.
  destruct Hout as [(Hv & _ & d & Hd & Hc) | [(Hv & _ & (a & d & Hd) & Hbad)
                                              | (Hv & _ & a & b & c & Habc)]].
  - left. split; [done |]. exists d. by rewrite Hd, <- app_assoc.
  - right. left. split_and!; [done | | done]. exists a, d. by rewrite Hd, <- app_assoc.
  - right. right. split; [done |]. exists a, b, c. by rewrite Habc, <- app_assoc.
Qed.

(** C8, as amended.  The loop starts from the empty message list with
    the flag false and hands the state of each turn to the next.  With a
    model that gives out no id twice, after two turns that ended with
    the flag set the list holds four messages after the first turn and
    eight after the second. *)
Theorem history_accumulates_with_new_ids
    (u1 u2 : pystr) (s1 s2 : State) (p p1 p2 : Proc W) :
  u1 <> lit "q" -> u2 <> lit "q" ->
  turn W llm_invoke tool_search_run u1 (mkState [] false)
       (after_write (Prompt prompt_text) p) = (Ok s1, p1) ->
  valid_input s1 = true ->
  turn W llm_invoke tool_search_run u2 s1
       (after_write (Prompt prompt_text) p1) = (Ok s2, p2) ->
  valid_input s2 = true ->
  chatbot W llm_invoke tool_search_run [u1; u2; lit "q"] p
  = (Ok s2, after_write (Prompt prompt_text) p2)
  /\ length (messages s1) = 4%nat
  /\ length (messages s2) = 8%nat.
Proof.
  intros Hq1 Hq2 H1 Hv1 H2 Hv2.
  split.
  - unfold chatbot.
    rewrite (chatbot_loop_turn _ _ _ _ Hq1), (bind_step _ _ _ _ _ H1).
    rewrite (chatbot_loop_turn _ _ _ _ Hq2), (bind_step _ _ _ _ _ H2).
    apply chatbot_loop_quit.
  - destruct (turn_outcomes u1 (mkState [] false) s1
                (after_write (Prompt prompt_text) p) p1
                (channel_ok_nil _) (Forall_nil_2 _) H1)
      as (Hok1 & Hg1 & [(Hv & _) | [(Hv & _) | (_ & a & b & c & Hm1)]]);
      [congruence | congruence |].
    destruct (turn_outcomes u2 s1 s2 (after_write (Prompt prompt_text) p1) p2
                Hok1 Hg1 H2)
      as (_ & _ & [(Hv & _) | [(Hv & _) | (_ & a' & b' & c' & Hm2)]]);
      [congruence | congruence |].
    rewrite Hm2, length_app, Hm1. simpl. lia.
Qed.

Lemma superstep_returns (f : State -> M W State) (ch upd : State) (p : Proc W) (w' : W) :
  f ch (world p) = (Ok upd, w') ->
  exists ch' k', superstep f ch p = (Ok ch', mkProc w' k' (stdout p)).
Proof.
  intros Hf. unfold superstep, bind, in_world. rewrite Hf.
  destruct (update_channels_total ch upd (mkProc w' (uuid_count p) (stdout p)))
    as (ms & k' & Hu & _).
  rewrite Hu. by eexists _, _.
Qed.

(** X10.  An exception of a collaborator ends the loop.  When the model
    raises on the rewriting request, or the search tool raises on the
    text of the query the model returned, the loop raises that
    exception: the turn prints nothing after the prompt and the lines
    that follow are not read. *)
Theorem collaborator_exception_ends_loop (user_input : pystr) (rest : list pystr)
    (state : State) (p : Proc W) (e : exn) :
  channel_ok (uuid_count p) (messages state) ->
  ids_given_out used (world p) (messages state) ->
  user_input <> lit "q" ->
  ~ whitespace_only user_input ->
  (forall w1,
      llm_invoke (rewrite_prompt user_input) (world p) = (Raise e, w1) ->
      chatbot_loop W llm_invoke tool_search_run (user_input :: rest) state p
      = (Raise e, mkProc w1 (S (uuid_count p)) (stdout p ++ [Prompt prompt_text])))
  /\ (forall query w1 w2,
        llm_invoke (rewrite_prompt user_input) (world p) = (Ok query, w1) ->
        role query = AI ->
        tool_search_run (content query) w1 = (Raise e, w2) ->
        exists k,
          chatbot_loop W llm_invoke tool_search_run (user_input :: rest) state p
          = (Raise e, mkProc w2 k (stdout p ++ [Prompt prompt_text]))).
Proof.
  intros Hok Hgiven Hq Hvis.
  set (k := uuid_count p) in *.
  set (pp := after_write (Prompt prompt_text) p).
  set (human := stamped (HumanMessage user_input) k).
  set (ch0 := mkState (messages state ++ [human]) (valid_input state)).
  set (p0 := mkProc (world p) (S k) (stdout p ++ [Prompt prompt_text])).
  assert (Hstart : graph_invoke_log (add_user_input user_input state) pp
                   = run_from recursion_limit Node.process_input ch0 [] p0)
    by (by apply (invoke_log_start user_input state pp)).
  assert (Hok0 : channel_ok (S k) (messages ch0)) by (by apply channel_ok_snoc).
  assert (Hg0 : ids_given_out used (world p) (messages ch0)).
  { apply Forall_app. split; [done |]. constructor; [| done].
    intros i Hi. inversion Hi. left. by eexists. }
  assert (Hnode : processing_node W llm_invoke ch0 (world p)
                  = match llm_invoke (rewrite_prompt user_input) (world p) with
                    | (Ok r, w') => (Ok (mkState (messages ch0 ++ [r]) true), w')
                    | (Raise e, w') => (Raise e, w')
                    end).
  { by rewrite (processing_node_success W llm_invoke ch0 human (world p));
      [| apply last_snoc | |]. }
  split.
  - intros w1 Hllm. rewrite Hllm in Hnode.
    rewrite (chatbot_loop_turn _ _ _ _ Hq). apply bind_raise. fold pp.
    apply turn_raise. rewrite Hstart. unfold recursion_limit.
    rewrite (run_stage _ Node.process_input _ _ _ eq_refl).
    apply bind_raise. by apply (superstep_raise _ ch0 p0).
  - intros query w1 w2 Hllm Hrole Hsearch. rewrite Hllm in Hnode.
    destruct (superstep_returns (processing_node W llm_invoke) ch0 _ p0 w1 Hnode)
      as (ch1 & k1 & H1).
    destruct (superstep_appends Node.process_input (processing_node W llm_invoke)
                ch0 ch1 p0 (mkProc w1 k1 (stdout p0)) eq_refl Hok0 Hg0 H1)
      as (_ & _ & _ & x & x' & Hf & Hm1 & Hr1 & Hc1).
    change (world p0) with (world p) in Hf. rewrite Hnode in Hf.
    inversion Hf as [[Hx Hv]]. apply app_inj_tail in Hx as [_ <-].
    exists k1.
    rewrite (chatbot_loop_turn _ _ _ _ Hq). apply bind_raise. fold pp.
    apply turn_raise. rewrite Hstart. unfold recursion_limit.
    rewrite (run_stage _ Node.process_input _ _ _ eq_refl), (bind_step _ _ _ _ _ H1).
    unfold next_node at 1, route. rewrite <- Hv.
    rewrite (run_stage _ Node.process_search _ _ _ eq_refl).
    apply bind_raise.
    apply (superstep_raise _ ch1 (mkProc w1 k1 (stdout p ++ [Prompt prompt_text]))).
    change (world (mkProc w1 k1 (stdout p ++ [Prompt prompt_text]))) with w1.
    rewrite (process_search_nonempty W tool_search_run ch1 x' w1)
      by (rewrite Hm1; apply last_snoc).
    assert (Hi : isinstance x' AI = true)
      by (apply isinstance_true; congruence).
    by rewrite Hi, Hc1, Hsearch.
Qed.

Lemma assign_ids_given (w : W) (ms ms' : list Message) (k k' : nat) :
  ids_given_out used w ms -> assign_ids ms k = (Ok ms', k') ->
  ids_given_out used w ms'.
Proof.
  unfold ids_given_out. revert ms' k.
  induction ms as [|m ms IH]; intros ms' k Hms H; simpl in H.
  - inversion H. constructor.
  - inversion Hms as [|? ? Hm Hrest]; subst.
    apply bind_Ok in H as (m' & k1 & Hm' & H).
    apply bind_Ok in H as (ms1 & k2 & Hms1 & H). inversion H; subst.
    constructor; [| by eapply IH].
    destruct (assign_id_spec m k) as (m1 & k3 & Hm1 & _ & _ & _ & _ & _ & Hnone & Hsame).
    rewrite Hm' in Hm1. inversion Hm1; subst m1 k3.
    destruct (msg_id m) as [j|] eqn:Hj.
    + rewrite (Hsame ltac:(unfold has_id; congruence)). by rewrite Hj.
    + rewrite (Hnone eq_refl). intros i Hi. inversion Hi. left. by eexists.
Qed.

(** X11.  With a model whose replies are assistant messages and that
    gives out no id twice, a completed run has one of two outcomes: the
    rewriter alone ran, the flag is false and the last message is "No
    user input received."; or the three stages ran and the flag is true.
    The diagnostics of the search stage and of the formatter do not
    occur. *)
Theorem well_behaved_run_outcomes (input st : State) (log : list (Node.t * State))
    (p p' : Proc W) :
  assistant_replies llm_invoke ->
  Forall (drawn_before (uuid_count p)) (messages input) ->
  ids_given_out used (world p) (messages input) ->
  graph_invoke_log input p = (Ok (st, log), p') ->
  (valid_input st = false /\ fst <$> log = [Node.process_input]
   /\ exists d, last (messages st) = Some d
                /\ content d = lit "No user input received.")
  \/ (valid_input st = true
      /\ fst <$> log = [Node.process_input; Node.process_search; Node.format_output]).
Proof.
  intros Hai Hdr Hgiven H.
  apply invoke_log_inv in H as (ms & k & Hadd & H).
  destruct (add_messages_init _ _ Hdr) as (ms' & k' & Hadd' & Hok & _).
  rewrite Hadd in Hadd'. inversion Hadd'; subst ms' k'. clear Hadd'.
  assert (Hg : ids_given_out used (world p) ms).
  { unfold add_messages in Hadd. apply bind_Ok in Hadd as (l & k0 & Hl & Hadd).
    apply bind_Ok in Hadd as (r & k1 & Hr & Hadd). inversion Hadd; subst.
    simpl in Hl. inversion Hl; subst.
    apply foldl_merge_Forall; [constructor |]. by eapply assign_ids_given. }
  destruct (run_outcomes (mkState ms (valid_input input)) st log
              (mkProc (world p) k (stdout p)) p' Hok Hg H)
    as (_ & _ & [(Hv & Hlog & d & Hd & Hc)
                 | [(_ & _ & _ & prompt & w & w' & r & Hr & Hbad) | (Hv & Hlog & _)]]).
  - left. split_and!; [done | done |]. exists d. rewrite Hd. by rewrite last_snoc.
  - exfalso. apply Hbad. by eapply Hai.
  - by right.
Qed.

(** X12.  With such a model the history only grows: a completed turn
    leaves the messages it found in place and adds the user message
    followed by the diagnostic of the rewriter (flag false), or by the
    messages of the three stages (flag true). *)
Theorem turn_extends_history (user_input : pystr) (state state' : State)
    (p p' : Proc W) :
  assistant_replies llm_invoke ->
  channel_ok (uuid_count p) (messages state) ->
  ids_given_out used (world p) (messages state) ->
  turn W llm_invoke tool_search_run user_input state p = (Ok state', p') ->
  (valid_input state' = false
   /\ exists d, messages state'
                = messages state
                  ++ [stamped (HumanMessage user_input) (uuid_count p); d]
                /\ content d = lit "No user input received.")
  \/ (valid_input state' = true
      /\ exists a b c, messages state'
                       = messages state
                         ++ [stamped (HumanMessage user_input) (uuid_count p);
                             a; b; c]).
Proof.
  intros Hai Hok Hgiven H.
  destruct (turn_outcomes _ _ _ _ _ Hok Hgiven H)
    as (_ & _ & [Hout | [(_ & _ & prompt & w & w' & r & Hr & Hbad) | Hout]]).
  - by left.
  - exfalso. apply Hbad. by eapply Hai.
  - by right.
Qed.

(** X15.  With a model that gives out no id twice, after [n] turns and
    the "q" that ends the loop: the messages the loop started from are
    still the first ones of the history, between [2 * n] and [4 * n]
    messages were added, and the terminal got, [n] times, the prompt
    followed by one printed line, and then the prompt once more. *)
Theorem chatbot_loop_counts (lines rest : list pystr) (state state' : State)
    (p p' : Proc W) :
  channel_ok (uuid_count p) (messages state) ->
  ids_given_out used (world p) (messages state) ->
  Forall (fun line => line <> lit "q") lines ->
  chatbot_loop W llm_invoke tool_search_run (lines ++ lit "q" :: rest) state p
  = (Ok state', p') ->
  messages state `prefix_of` messages state'
  /\ (length (messages state) + 2 * length lines <= length (messages state'))%nat
  /\ (length (messages state') <= length (messages state) + 4 * length lines)%nat
  /\ exists printed : list pystr,
       length printed = length lines
       /\ stdout p'
          = stdout p
            ++ concat ((fun line => [Prompt prompt_text; Printed line]) <$> printed)
            ++ [Prompt prompt_text].
Proof.
  revert state p.
  induction lines as [|line lines IH]; intros state p Hok Hgiven Hlines H.
  - rewrite app_nil_l, chatbot_loop_quit in H. inversion H; subst.
    split_and!; [done | simpl; lia | simpl; lia |].
    by exists [].
  - inversion Hlines as [|? ? Hq Hrest]; subst.
    rewrite <- app_comm_cons, (chatbot_loop_turn _ _ _ _ Hq) in H.
    apply bind_Ok in H as (st1 & p1 & Hturn & H).
    assert (Hout : exists l, stdout p1 = stdout p ++ [Prompt prompt_text; Printed l]).
    { pose proof Hturn as Ht. apply turn_inv in Ht as (p2 & r & Hinv & _ & ->).
      pose proof (quiet_invoke (add_user_input line state)
                    (after_write (Prompt prompt_text) p)) as Hquiet.
      rewrite Hinv in Hquiet. simpl in Hquiet.
      eexists. unfold after_write. cbn [stdout]. rewrite Hquiet.
      by rewrite <- app_assoc. }
    destruct Hout as [l Hout].
    destruct (turn_outcomes line state st1 (after_write (Prompt prompt_text) p) p1
                Hok Hgiven Hturn) as (Hok1 & Hg1 & Hgrow).
    destruct (IH st1 p1 Hok1 Hg1 Hrest H) as (Hpre & Hlo & Hhi & printed & Hlen & Hstd).
    assert (Hst1 : messages state `prefix_of` messages st1
                   /\ (length (messages state) + 2 <= length (messages st1))%nat
                   /\ (length (messages st1) <= length (messages state) + 4)%nat).
    { destruct Hgrow as [(_ & d & -> & _) | [(_ & (a & d & ->) & _)
                                             | (_ & a & b & c & ->)]];
        (split; [by apply prefix_app_r |]); rewrite length_app; simpl; lia. }
    destruct Hst1 as (Hpre1 & Hlo1 & Hhi1).
    split_and!; [by etrans | simpl; lia | simpl; lia |].
    exists (l :: printed). split; [simpl; lia |].
    rewrite Hstd, Hout. simpl. by rewrite <- !app_assoc.
Qed.

End NewIds.

(** *** How the loop ends *)

Lemma invoke_raise_origin (input : State) (p p' : Proc W) (e : exn) :
  graph_invoke input p = (Raise e, p') ->
  exists w w',
    (exists prompt, llm_invoke prompt w = (Raise e, w'))
    \/ (exists query, tool_search_run query w = (Raise e, w')).
Proof.
  intros H. unfold invoke in H.
  destruct (graph_invoke_log input p) as [[r|e'] p1] eqn:Hlog;
    [by rewrite (bind_step _ _ _ _ _ Hlog) in H |].
  rewrite (bind_raise _ _ _ _ _ Hlog) in H. inversion H; subst e' p1. clear H.
  unfold invoke_log in Hlog.
  destruct (update_channels_total (mkState [] false) input p) as (ms & k & Hu & _).
  rewrite (bind_step _ _ _ _ _ Hu) in Hlog.
  change (next_node Node.START _) with Node.process_input in Hlog.
  assert (Hstage : forall n f ch q q',
             node_fn n = Some f -> messages ch <> [] ->
             superstep f ch q = (Raise e, q') ->
             exists w w',
               (exists prompt, llm_invoke prompt w = (Raise e, w'))
               \/ (exists query, tool_search_run query w = (Raise e, w'))).
  { intros n f ch q q' Hn Hne Hs. apply superstep_raise_inv in Hs as [w' Hs].
    eexists _, _. by eapply (stage_raise_inv n). }
  unfold recursion_limit in Hlog.
  rewrite (run_stage _ Node.process_input _ _ _ eq_refl) in Hlog.
  destruct (superstep (processing_node W llm_invoke) (mkState ms (valid_input input))
              (mkProc (world p) k (stdout p))) as [[s1|e1] p1] eqn:H1.
  2:{ rewrite (bind_raise _ _ _ _ _ H1) in Hlog. inversion Hlog; subst.
      apply superstep_raise_inv in H1 as [w' H1].
      apply rewriter_raise_inv in H1. eexists _, _. by left. }
  rewrite (bind_step _ _ _ _ _ H1) in Hlog.
  pose proof (superstep_nonempty Node.process_input _ _ _ _ _ eq_refl H1) as Hne1.
  unfold next_node at 1, route in Hlog.
  destruct (valid_input s1); [| by rewrite run_END in Hlog].
  rewrite (run_stage _ Node.process_search _ _ _ eq_refl) in Hlog.
  destruct (superstep (process_search W tool_search_run) s1 p1) as [[s2|e2] p2] eqn:H2.
  2:{ rewrite (bind_raise _ _ _ _ _ H2) in Hlog. inversion Hlog; subst.
      by eapply (Hstage Node.process_search). }
  rewrite (bind_step _ _ _ _ _ H2) in Hlog.
  pose proof (superstep_nonempty Node.process_search _ _ _ _ _ eq_refl H2) as Hne2.
  unfold next_node at 1, route in Hlog.
  destruct (valid_input s2); [| by rewrite run_END in Hlog].
  rewrite (run_stage _ Node.format_output _ _ _ eq_refl) in Hlog.
  destruct (superstep (format_output W llm_invoke) s2 p2) as [[s3|e3] p3] eqn:H3.
  2:{ rewrite (bind_raise _ _ _ _ _ H3) in Hlog. inversion Hlog; subst.
      by eapply (Hstage Node.format_output). }
  rewrite (bind_step _ _ _ _ _ H3) in Hlog. by rewrite run_END in Hlog.
Qed.

(** X13.  The loop returns only after reading "q".  When it does not
    return, it ends with [EOFError], raised by [input] when the lines
    ran out with no "q" among them, or with an exception that the model
    or the search tool raised. *)
Theorem chatbot_loop_ends (stdin : list pystr) (state : State) (p : Proc W) :
  match chatbot_loop W llm_invoke tool_search_run stdin state p with
  | (Ok _, _) => lit "q" ∈ stdin
  | (Raise e, _) =>
      (e = EOFError /\ lit "q" ∉ stdin)
      \/ exists w w',
           (exists prompt, llm_invoke prompt w = (Raise e, w'))
           \/ (exists query, tool_search_run query w = (Raise e, w'))
  end.
Proof.
  revert state p. induction stdin as [|line rest IH]; intros state p.
  - simpl. left. split; [done | apply not_elem_of_nil].
  - destruct (decide (line = lit "q")) as [-> | Hq].
    { rewrite chatbot_loop_quit. left. }
    rewrite (chatbot_loop_turn _ _ _ _ Hq). unfold bind.
    destruct (turn W llm_invoke tool_search_run line state
                (after_write (Prompt prompt_text) p)) as [[st1|e] p1] eqn:Hturn.
    + specialize (IH st1 p1).
      destruct (chatbot_loop W llm_invoke tool_search_run rest st1 p1) as [[st2|e] p2].
      * by right.
      * destruct IH as [[-> Hnot] | Hc]; [left | by right].
        split; [done |]. rewrite not_elem_of_cons. by split.
    + right.
      destruct (graph_invoke (add_user_input line state)
                  (after_write (Prompt prompt_text) p)) as [[st1|e1] p2] eqn:Hinv.
      * destruct (turn_step _ _ _ _ _ Hinv) as (r & _ & Ht).
        rewrite Ht in Hturn. discriminate.
      * unfold turn in Hturn. rewrite (bind_raise _ _ _ _ _ Hinv) in Hturn.
        inversion Hturn; subst. by eapply invoke_raise_origin.
Qed.

End GraphProperties.

(** * Worked examples

    The embedding run on the test doubles of [Stub], and the properties
    above at these inputs. *)

Example strip_trims_both_ends :
  strip (lit "  best beaches " ++ [0x3000%N]) = lit "best beaches".
Proof. reflexivity. Qed.

(** Pressing enter on an empty line: the run ends after the rewriter
    with the diagnostic, and no collaborator was called. *)
Example empty_line_run :
  invoke_log nat Stub.llm_invoke Stub.tool_search_run
    (mkState [HumanMessage (lit "")] false) Stub.start
  = (let st := mkState [Stub.with_id (HumanMessage (lit "")) 0;
                        Stub.with_id no_user_input 1] false in
     (Ok (st, [(Node.process_input, st)]), mkProc 0%nat 2%nat [])).
Proof. vm_compute. reflexivity. Qed.

(** A turn through the three stages adds the user message, the query,
    the wrapped results and the report. *)
Example beaches_turn :
  turn nat Stub.llm_invoke Stub.tool_search_run Stub.beaches (mkState [] false)
    Stub.start
  = (Ok Stub.after_one_turn, mkProc 3%nat 4%nat [Printed (lit "Portugal beaches")]).
Proof. vm_compute. reflexivity. Qed.

(** A reply that carries the id of an older message takes its place in
    the history: here the report overwrites the query, the list ends in
    the search results and the turn prints those. *)
Example reply_reusing_an_id_overwrites :
  turn nat Stub.llm_same_id Stub.tool_search_run Stub.beaches (mkState [] false)
    Stub.start
  = (Ok (mkState
           [Stub.with_id (HumanMessage Stub.beaches) 0;
            mkMessage AI (lit "Portugal beaches") (Some (Given (lit "reply")));
            Stub.with_id (AIMessage (lit "Search results: " ++ lit "stub results")) 1]
           true),
     mkProc 3%nat 2%nat [Printed (lit "Search results: " ++ lit "stub results")]).
Proof. vm_compute. reflexivity. Qed.

Lemma stub_llm_assistant : assistant_replies Stub.llm_invoke.
Proof. intros prompt w r w' H. by inversion H. Qed.

Lemma stub_llm_foreign : foreign_reply_ids Stub.llm_invoke.
Proof. intros prompt w r w' n H. by inversion H. Qed.

Lemma beaches_visible : ~ whitespace_only Stub.beaches.
Proof. intros H. inversion H as [|c s Hc Hs]. discriminate Hc. Qed.

Lemma beaches_not_q : Stub.beaches <> lit "q".
Proof. discriminate. Qed.

Lemma blank_whitespace_only : whitespace_only Stub.blank.
Proof. repeat constructor. Qed.

Lemma processing_node_rejects_missing_input_witness :
  processing_node nat Stub.llm_invoke (mkState [HumanMessage Stub.blank] false) 0%nat
  = (Ok (mkState ([HumanMessage Stub.blank]
                  ++ [AIMessage (lit "No user input received.")]) false),
     0%nat).
Proof.
  apply (processing_node_rejects_missing_input nat Stub.llm_invoke
           (mkState [HumanMessage Stub.blank] false) 0%nat).
  right. exists (HumanMessage Stub.blank).
  split; [reflexivity |]. right. exact blank_whitespace_only.
Defined.

Lemma processing_node_accepts_user_text_witness :
  processing_node nat Stub.llm_invoke (mkState [HumanMessage Stub.beaches] false) 0%nat
  = (Ok (mkState ([HumanMessage Stub.beaches]
                  ++ [AIMessage (lit "Portugal beaches")]) true),
     1%nat)
  /\ role (AIMessage (lit "Portugal beaches")) = AI.
Proof.
  apply (processing_node_accepts_user_text nat Stub.llm_invoke
           (mkState [HumanMessage Stub.beaches] false)
           (HumanMessage Stub.beaches) _ 0%nat 1%nat).
  - exact stub_llm_assistant.
  - reflexivity.
  - reflexivity.
  - exact beaches_visible.
  - reflexivity.
Defined.

Lemma process_search_wraps_results_witness :
  process_search nat Stub.tool_search_run
    (mkState [HumanMessage Stub.beaches; AIMessage (lit "Portugal beaches")] true) 1%nat
  = (Ok (mkState ([HumanMessage Stub.beaches; AIMessage (lit "Portugal beaches")]
                  ++ [AIMessage (lit "Search results: " ++ lit "stub results")]) true),
     2%nat)
  /\ role (AIMessage (lit "Search results: " ++ lit "stub results")) = AI.
Proof.
  apply (process_search_wraps_results nat Stub.tool_search_run
           (mkState [HumanMessage Stub.beaches; AIMessage (lit "Portugal beaches")] true)
           (AIMessage (lit "Portugal beaches")) (lit "stub results") 1%nat 2%nat);
    reflexivity.
Defined.

Lemma stage_appends_one_message_witness :
  exists x,
    messages (mkState ([AIMessage (lit "Portugal beaches")]
                       ++ [AIMessage (lit "Search results: " ++ lit "stub results")]) true)
    = [AIMessage (lit "Portugal beaches")] ++ [x].
Proof.
  apply (stage_appends_one_message nat Stub.llm_invoke Stub.tool_search_run
           Node.process_search (process_search nat Stub.tool_search_run)
           (mkState [AIMessage (lit "Portugal beaches")] false) _ 0%nat 1%nat);
    reflexivity.
Defined.

Lemma stage_reads_last_message_only_witness :
  exists x,
    [AIMessage (lit "Portugal beaches"); AIMessage (lit "Search results: " ++ lit "stub results")]
    = [AIMessage (lit "Portugal beaches")] ++ [x]
    /\ [HumanMessage Stub.beaches; AIMessage (lit "Portugal beaches");
        AIMessage (lit "Search results: " ++ lit "stub results")]
       = [HumanMessage Stub.beaches; AIMessage (lit "Portugal beaches")] ++ [x]
    /\ true = true /\ 1%nat = 1%nat.
Proof.
  exact (stage_reads_last_message_only nat Stub.llm_invoke Stub.tool_search_run
           Node.process_search (process_search nat Stub.tool_search_run)
           (mkState [AIMessage (lit "Portugal beaches")] false)
           (mkState [HumanMessage Stub.beaches; AIMessage (lit "Portugal beaches")] true)
           (AIMessage (lit "Portugal beaches")) 0%nat eq_refl eq_refl eq_refl).
Defined.

Lemma router_exits_early_witness :
  invoke_log nat Stub.llm_invoke Stub.tool_search_run
    (mkState [HumanMessage Stub.blank] false) Stub.start
  = (Ok (Stub.after_blank, [(Node.process_input, Stub.after_blank)]),
     mkProc 0%nat 2%nat [])
  /\ forall s', (Node.process_search, s') ∉ [(Node.process_input, Stub.after_blank)].
Proof.
  assert (Hrun : invoke_log nat Stub.llm_invoke Stub.tool_search_run
                   (mkState [HumanMessage Stub.blank] false) Stub.start
                 = (Ok (Stub.after_blank, [(Node.process_input, Stub.after_blank)]),
                    mkProc 0%nat 2%nat [])) by (vm_compute; reflexivity).
  split; [exact Hrun |].
  refine (proj2 (proj1 (proj2 (proj2 (proj2
            (router_exits_early nat Stub.llm_invoke Stub.tool_search_run)))
            _ _ _ _ _ Hrun) Stub.after_blank _ eq_refl)).
  left.
Defined.

Lemma chatbot_loop_behaviour_witness :
  exists response,
    last (messages Stub.after_one_turn) = Some response
    /\ chatbot_loop nat Stub.llm_invoke Stub.tool_search_run
         [Stub.beaches; lit "q"] (mkState [] false) Stub.start
       = chatbot_loop nat Stub.llm_invoke Stub.tool_search_run
           [lit "q"] Stub.after_one_turn
           (after_write (Printed (if isinstance response AI
                                then content response
                                else lit "Invalid response received."))
                        (mkProc 3%nat 4%nat [Prompt prompt_text])).
Proof.
  apply (proj1 (proj2 (chatbot_loop_behaviour nat Stub.llm_invoke
                         Stub.tool_search_run))
           Stub.beaches [lit "q"] (mkState [] false) Stub.start).
  - exact beaches_not_q.
  - vm_compute. reflexivity.
Defined.

Lemma completed_run_ends_with_assistant_message_witness :
  channel_ok 4 (messages Stub.after_one_turn)
  /\ exists r, last (messages Stub.after_one_turn) = Some r
               /\ isinstance r AI = true
               /\ [Printed (lit "Portugal beaches")] = [] ++ [Printed (content r)].
Proof.
  apply (proj2 (proj2 (completed_run_ends_with_assistant_message nat
                         Stub.llm_invoke Stub.tool_search_run
                         stub_llm_assistant stub_llm_foreign))
           Stub.beaches (mkState [] false) Stub.start Stub.after_one_turn
           (mkProc 3%nat 4%nat [Printed (lit "Portugal beaches")])).
  - apply channel_ok_nil.
  - vm_compute. reflexivity.
Defined.

(** ** Further examples *)

Lemma rewriter_flag_iff_witness :
  true = true
  <-> exists m, last [HumanMessage Stub.beaches] = Some m /\ role m = Human
                /\ ~ whitespace_only (content m).
Proof.
  exact (rewriter_flag_iff nat Stub.llm_invoke
           (mkState [HumanMessage Stub.beaches] false)
           (mkState ([HumanMessage Stub.beaches] ++ [AIMessage (lit "Portugal beaches")]) true)
           0%nat 1%nat eq_refl).
Defined.

Lemma later_stage_flag_iff_witness :
  exists q, last [HumanMessage Stub.beaches] = Some q
            /\ (false = true <-> role q = AI).
Proof.
  exact (later_stage_flag_iff nat Stub.llm_invoke Stub.tool_search_run
           Node.process_search (process_search nat Stub.tool_search_run)
           (mkState [HumanMessage Stub.beaches] true)
           (mkState ([HumanMessage Stub.beaches] ++ [no_search_query]) false)
           1%nat 1%nat (or_introl eq_refl) eq_refl eq_refl).
Defined.

Lemma format_output_appends_report_witness :
  format_output nat Stub.llm_invoke
    (mkState [AIMessage (lit "Search results: " ++ lit "stub results")] true) 2%nat
  = (Ok (mkState ([AIMessage (lit "Search results: " ++ lit "stub results")]
                  ++ [AIMessage (lit "Portugal beaches")]) true), 3%nat)
  /\ role (AIMessage (lit "Portugal beaches")) = AI.
Proof.
  apply (format_output_appends_report nat Stub.llm_invoke
           (mkState [AIMessage (lit "Search results: " ++ lit "stub results")] true)
           (AIMessage (lit "Search results: " ++ lit "stub results")) _ 2%nat 3%nat).
  - exact stub_llm_assistant.
  - reflexivity.
  - reflexivity.
  - reflexivity.
Defined.

Lemma stages_propagate_exceptions_witness :
  process_search nat Outage.tool_search_run
    (mkState [AIMessage (lit "Portugal beaches")] true) 1%nat
  = (Raise (CollaboratorError 429), 2%nat).
Proof.
  apply (proj1 (proj2 (stages_propagate_exceptions nat Stub.llm_invoke
                         Outage.tool_search_run
                         (mkState [AIMessage (lit "Portugal beaches")] true)
                         (AIMessage (lit "Portugal beaches"))
                         (CollaboratorError 429) 1%nat 2%nat eq_refl)));
    reflexivity.
Defined.

Lemma run_is_linear_witness :
  (fst <$> [(Node.process_input, Stub.after_blank)] = [Node.process_input]
   \/ fst <$> [(Node.process_input, Stub.after_blank)]
      = [Node.process_input; Node.process_search]
   \/ fst <$> [(Node.process_input, Stub.after_blank)]
      = [Node.process_input; Node.process_search; Node.format_output])
  /\ last (snd <$> [(Node.process_input, Stub.after_blank)]) = Some Stub.after_blank
  /\ (forall i n s,
        [(Node.process_input, Stub.after_blank)] !! i = Some (n, s) ->
        (S i < length [(Node.process_input, Stub.after_blank)])%nat ->
        valid_input s = true).
Proof.
  apply (run_is_linear nat Stub.llm_invoke Stub.tool_search_run
           (mkState [HumanMessage Stub.blank] false) Stub.after_blank
           [(Node.process_input, Stub.after_blank)] Stub.start (mkProc 0%nat 2%nat [])).
  vm_compute. reflexivity.
Defined.

Lemma blank_turn_witness :
  turn nat Stub.llm_invoke Stub.tool_search_run Stub.blank (mkState [] false) Stub.start
  = (Ok (mkState ([] ++ [stamped (HumanMessage Stub.blank) 0;
                         stamped (AIMessage (lit "No user input received.")) 1])
                 false),
     mkProc 0%nat 2%nat ([] ++ [Printed (lit "No user input received.")])).
Proof.
  apply (blank_turn nat Stub.llm_invoke Stub.tool_search_run Stub.blank
           (mkState [] false) Stub.start).
  - apply channel_ok_nil.
  - exact blank_whitespace_only.
Defined.

Lemma full_turn_witness :
  turn nat Stub.llm_invoke Stub.tool_search_run Stub.beaches (mkState [] false) Stub.start
  = (Ok (mkState ([] ++ [stamped (HumanMessage Stub.beaches) 0;
                         stamped (AIMessage (lit "Portugal beaches")) 1;
                         stamped (AIMessage (lit "Search results: " ++ lit "stub results")) 2;
                         stamped (AIMessage (lit "Portugal beaches")) 3])
                 true),
     mkProc 3%nat 4%nat
       ([] ++ [Printed (if isinstance (AIMessage (lit "Portugal beaches")) AI
                        then content (AIMessage (lit "Portugal beaches"))
                        else lit "Invalid response received.")])).
Proof.
  apply (full_turn nat Stub.llm_invoke Stub.tool_search_run Stub.beaches
           (lit "stub results") (AIMessage (lit "Portugal beaches"))
           (AIMessage (lit "Portugal beaches")) (mkState [] false) Stub.start
           1%nat 2%nat 3%nat).
  - apply channel_ok_nil.
  - exact beaches_visible.
  - reflexivity.
  - reflexivity.
  - reflexivity.
  - reflexivity.
  - reflexivity.
  - reflexivity.
Defined.

Lemma cleared_flag_means_diagnostic_witness :
  messages (mkState ([HumanMessage Stub.beaches] ++ [no_search_query]) false)
  = messages (mkState [HumanMessage Stub.beaches] true)
    ++ [AIMessage (lit "No search query received.")]
  /\ 1%nat = 1%nat.
Proof.
  apply (proj1 (proj2 (cleared_flag_means_diagnostic nat Stub.llm_invoke
                         Stub.tool_search_run
                         (mkState [HumanMessage Stub.beaches] true)
                         (mkState ([HumanMessage Stub.beaches] ++ [no_search_query]) false)
                         1%nat 1%nat eq_refl))).
  reflexivity.
Defined.

Lemma exceptions_come_from_collaborators_witness :
  exists w w' : nat,
    (exists prompt, Outage.llm_invoke prompt w = (Raise (CollaboratorError 503), w'))
    \/ (exists query, Stub.tool_search_run query w = (Raise (CollaboratorError 503), w')).
Proof.
  apply (proj1 (exceptions_come_from_collaborators nat Outage.llm_invoke
                  Stub.tool_search_run (mkState [HumanMessage Stub.beaches] false)
                  Stub.start)
           (CollaboratorError 503) (mkProc 1%nat 1%nat [])).
  vm_compute. reflexivity.
Defined.

(** ** A model that gives out no id twice, and one that does *)

Lemma client_assistant : assistant_replies Client.llm_invoke.
Proof. intros prompt w r w' H. by inversion H. Qed.

Lemma client_new_ids (tool_search_run : pystr -> M nat pystr) :
  (forall query calls, snd (tool_search_run query calls) = S calls) ->
  new_reply_ids Client.llm_invoke tool_search_run Client.used.
Proof.
  intros Hsearch. split.
  - intros prompt w r w' i H Hid. inversion H; subst. inversion Hid; subst.
    split_and!.
    + discriminate.
    + intros (n & Hlt & Heq). inversion Heq as [Hn].
      apply Nat2N.inj in Hn. lia.
    + exists w. split; [lia | done].
  - intros prompt w res w' i H (n & Hlt & ->). inversion H; subst.
    exists n. split; [lia | done].
  - intros query w res w' i H (n & Hlt & ->).
    pose proof (Hsearch query w) as Hw. rewrite H in Hw. simpl in Hw. subst w'.
    exists n. split; [lia | done].
Qed.

Lemma client_stub_new_ids :
  new_reply_ids Client.llm_invoke Stub.tool_search_run Client.used.
Proof. by apply client_new_ids. Qed.

Lemma client_outage_new_ids :
  new_reply_ids Client.llm_invoke Outage.tool_search_run Client.used.
Proof. by apply client_new_ids. Qed.

Lemma client_first_turn :
  turn nat Client.llm_invoke Stub.tool_search_run Stub.beaches (mkState [] false)
    Stub.start
  = (Ok Client.after_one_turn, Client.process_one).
Proof. vm_compute. reflexivity. Qed.

Lemma client_after_one_turn_ok :
  channel_ok 2 (messages Client.after_one_turn)
  /\ ids_given_out Client.used 3 (messages Client.after_one_turn).
Proof.
  destruct (turn_outcomes nat Client.llm_invoke Stub.tool_search_run Client.used
              client_stub_new_ids Stub.beaches (mkState [] false)
              Client.after_one_turn Stub.start Client.process_one
              (channel_ok_nil _) (Forall_nil_2 _) client_first_turn)
    as (Hok & Hg & _).
  by split.
Qed.

(** C8, as the specification has it, fails.  The replies of
    [Reuse.llm_invoke] are assistant messages with ids that [uuid4] does
    not produce, but the report of a turn carries the id of the query of
    that turn: the reducer puts the report in the place of the query.
    Two turns end with the flag set and leave three, then six
    messages. *)
Lemma history_accumulates_counterexample :
  assistant_replies Reuse.llm_invoke
  /\ foreign_reply_ids Reuse.llm_invoke
  /\ turn nat Reuse.llm_invoke Stub.tool_search_run Stub.beaches (mkState [] false)
       (after_write (Prompt prompt_text) Stub.start)
     = (Ok Reuse.after_one_turn, Reuse.process_one)
  /\ valid_input Reuse.after_one_turn = true
  /\ turn nat Reuse.llm_invoke Stub.tool_search_run Stub.beaches Reuse.after_one_turn
       (after_write (Prompt prompt_text) Reuse.process_one)
     = (Ok Reuse.after_two_turns, Reuse.process_two)
  /\ valid_input Reuse.after_two_turns = true
  /\ chatbot nat Reuse.llm_invoke Stub.tool_search_run
       [Stub.beaches; Stub.beaches; lit "q"] Stub.start
     = (Ok Reuse.after_two_turns, after_write (Prompt prompt_text) Reuse.process_two)
  /\ length (messages Reuse.after_one_turn) = 3%nat
  /\ length (messages Reuse.after_two_turns) = 6%nat
  /\ ~ eight_after_two_turns Reuse.llm_invoke Stub.tool_search_run.
Proof.
  assert (H1 : turn nat Reuse.llm_invoke Stub.tool_search_run Stub.beaches
                 (mkState [] false) (after_write (Prompt prompt_text) Stub.start)
               = (Ok Reuse.after_one_turn, Reuse.process_one))
    by (vm_compute; reflexivity).
  assert (H2 : turn nat Reuse.llm_invoke Stub.tool_search_run Stub.beaches
                 Reuse.after_one_turn
                 (after_write (Prompt prompt_text) Reuse.process_one)
               = (Ok Reuse.after_two_turns, Reuse.process_two))
    by (vm_compute; reflexivity).
  assert (Ha : assistant_replies Reuse.llm_invoke).
  { intros prompt w r w' H. by inversion H. }
  assert (Hf : foreign_reply_ids Reuse.llm_invoke).
  { intros prompt w r w' n H. by inversion H. }
  assert (Hc : chatbot nat Reuse.llm_invoke Stub.tool_search_run
                 [Stub.beaches; Stub.beaches; lit "q"] Stub.start
               = (Ok Reuse.after_two_turns,
                  after_write (Prompt prompt_text) Reuse.process_two))
    by (vm_compute; reflexivity).
  assert (Hn : ~ eight_after_two_turns Reuse.llm_invoke Stub.tool_search_run).
  { intros H.
    specialize (H Stub.beaches Stub.beaches Reuse.after_one_turn Reuse.after_two_turns
                  Stub.start Reuse.process_one Reuse.process_two
                  beaches_not_q beaches_not_q H1 eq_refl H2 eq_refl).
    discriminate H. }
  exact (conj Ha (conj Hf (conj H1 (conj eq_refl (conj H2 (conj eq_refl
          (conj Hc (conj eq_refl (conj eq_refl Hn))))))))).
Qed.

Lemma history_accumulates_with_new_ids_witness :
  chatbot nat Client.llm_invoke Stub.tool_search_run
    [Stub.beaches; Stub.beaches; lit "q"] Stub.start
  = (Ok Client.after_two_turns,
     after_write (Prompt prompt_text)
       (mkProc 6%nat 4%nat
          [Prompt prompt_text; Printed (lit "Portugal beaches");
           Prompt prompt_text; Printed (lit "Portugal beaches")]))
  /\ length (messages Client.after_one_turn) = 4%nat
  /\ length (messages Client.after_two_turns) = 8%nat.
Proof.
  apply (history_accumulates_with_new_ids nat Client.llm_invoke Stub.tool_search_run
           Client.used client_stub_new_ids
           Stub.beaches Stub.beaches Client.after_one_turn Client.after_two_turns
           Stub.start
           (mkProc 3%nat 2%nat [Prompt prompt_text; Printed (lit "Portugal beaches")])).
  - exact beaches_not_q.
  - exact beaches_not_q.
  - vm_compute. reflexivity.
  - reflexivity.
  - vm_compute. reflexivity.
  - reflexivity.
Defined.

Lemma outage_new_ids :
  new_reply_ids Outage.llm_invoke Stub.tool_search_run (fun _ _ => False).
Proof. split; [intros prompt w r w' i H; inversion H | done | done]. Qed.

Lemma collaborator_exception_ends_loop_witness :
  chatbot_loop nat Outage.llm_invoke Stub.tool_search_run
    [Stub.beaches; lit "q"] (mkState [] false) Stub.start
  = (Raise (CollaboratorError 503), mkProc 1%nat 1%nat ([] ++ [Prompt prompt_text]))
  /\ exists k,
       chatbot_loop nat Client.llm_invoke Outage.tool_search_run
         [Stub.beaches; lit "q"] (mkState [] false) Stub.start
       = (Raise (CollaboratorError 429), mkProc 2%nat k ([] ++ [Prompt prompt_text])).
Proof.
  split.
  - apply (proj1 (collaborator_exception_ends_loop nat Outage.llm_invoke
                    Stub.tool_search_run (fun _ _ => False) outage_new_ids
                    Stub.beaches [lit "q"] (mkState [] false) Stub.start
                    (CollaboratorError 503)
                    (channel_ok_nil _) (Forall_nil_2 _) beaches_not_q beaches_visible)
             1%nat).
    reflexivity.
  - apply (proj2 (collaborator_exception_ends_loop nat Client.llm_invoke
                    Outage.tool_search_run Client.used client_outage_new_ids
                    Stub.beaches [lit "q"] (mkState [] false) Stub.start
                    (CollaboratorError 429)
                    (channel_ok_nil _) (Forall_nil_2 _) beaches_not_q beaches_visible)
             (Client.reply 0) 1%nat 2%nat);
      reflexivity.
Defined.

Lemma well_behaved_run_outcomes_witness :
  (valid_input Client.after_one_turn = false
   /\ fst <$> Client.run_log = [Node.process_input]
   /\ exists d, last (messages Client.after_one_turn) = Some d
                /\ content d = lit "No user input received.")
  \/ (valid_input Client.after_one_turn = true
      /\ fst <$> Client.run_log
         = [Node.process_input; Node.process_search; Node.format_output]).
Proof.
  apply (well_behaved_run_outcomes nat Client.llm_invoke Stub.tool_search_run
           Client.used client_stub_new_ids
           (mkState [HumanMessage Stub.beaches] false) Client.after_one_turn
           Client.run_log Stub.start (mkProc 3%nat 2%nat [])).
  - exact client_assistant.
  - apply Forall_singleton. intros n Hn. discriminate Hn.
  - apply Forall_singleton. intros i Hi. discriminate Hi.
  - vm_compute. reflexivity.
Defined.

Lemma turn_extends_history_witness :
  (valid_input Client.after_two_turns = false
   /\ exists d, messages Client.after_two_turns
                = messages Client.after_one_turn
                  ++ [stamped (HumanMessage Stub.beaches) 2; d]
                /\ content d = lit "No user input received.")
  \/ (valid_input Client.after_two_turns = true
      /\ exists a b c, messages Client.after_two_turns
                       = messages Client.after_one_turn
                         ++ [stamped (HumanMessage Stub.beaches) 2; a; b; c]).
Proof.
  apply (turn_extends_history nat Client.llm_invoke Stub.tool_search_run
           Client.used client_stub_new_ids
           Stub.beaches Client.after_one_turn Client.after_two_turns
           Client.process_one
           (mkProc 6%nat 4%nat [Printed (lit "Portugal beaches");
                                Printed (lit "Portugal beaches")])).
  - exact client_assistant.
  - exact (proj1 client_after_one_turn_ok).
  - exact (proj2 client_after_one_turn_ok).
  - vm_compute. reflexivity.
Defined.

Lemma chatbot_loop_counts_witness :
  messages (mkState [] false) `prefix_of` messages Client.history
  /\ (length (messages (mkState [] false)) + 2 * length Client.lines
      <= length (messages Client.history))%nat
  /\ (length (messages Client.history)
      <= length (messages (mkState [] false)) + 4 * length Client.lines)%nat
  /\ exists printed : list pystr,
       length printed = length Client.lines
       /\ stdout Client.process
          = stdout Stub.start
            ++ concat ((fun line => [Prompt prompt_text; Printed line]) <$> printed)
            ++ [Prompt prompt_text].
Proof.
  apply (chatbot_loop_counts nat Client.llm_invoke Stub.tool_search_run
           Client.used client_stub_new_ids
           Client.lines [Stub.beaches] (mkState [] false) Client.history
           Stub.start Client.process).
  - apply channel_ok_nil.
  - apply Forall_nil_2.
  - repeat constructor; discriminate.
  - vm_compute. reflexivity.
Defined.
